(** * Synthetic cash-drag panel generator: a shallow embedding

    The development follows [scripts/generate_synthetic_data.py].

    - numpy arrays are lists; an elementwise numpy expression is the same
      scalar expression at every index;
    - Python ints are [Z], floats are rationals [Q] (the transcendental
      functions [np.exp] and [np.log] and the samplers of
      [np.random.Generator] are the fields of an interface, [Numpy]);
      rounding, infinities and the [nan] that [np.log] returns for a
      negative balance are outside the model;
    - [np.nan] is the constructor [nan] of [cell];
    - exceptions are the [Raise] results of a small error monad;
    - a [dict] is an association list in insertion order. *)

From Stdlib Require Import ZArith QArith Qminmax Qround Bool List String Lia Lqa.
Import ListNotations.

Local Open Scope string_scope.
Local Open Scope Z_scope.

(** ** Exceptions *)

Inductive exn : Type := KeyError | ValueError | TypeError | IndexError.

Inductive result (A : Type) : Type :=
| Ok (a : A)
| Raise (e : exn).

Arguments Ok {A} a.
Arguments Raise {A} e.

Definition bind {A B : Type} (c : result A) (k : A -> result B) : result B :=
  match c with
  | Ok a => k a
  | Raise e => Raise e
  end.

Notation "x <- c ;; k" := (bind c (fun x => k))
  (at level 61, c at next level, right associativity).
Notation "' pat <- c ;; k" := (bind c (fun x => match x with pat => k end))
  (at level 61, pat pattern, c at next level, right associativity).

Definition is_ok {A : Type} (c : result A) : bool :=
  match c with Ok _ => true | Raise _ => false end.

(** ** Numbers *)

Definition Qltb (x y : Q) : bool := negb (Qle_bool y x).
Definition Qgtb (x y : Q) : bool := Qltb y x.

(** [bool] used as a number, as numpy does in [0.05 * (balance > 50_000)]. *)
Definition b2q (b : bool) : Q := inject_Z (Z.b2z b).

(** [np.clip(x, lo, hi)], that is [minimum(maximum(x, lo), hi)]. *)
Definition clip (x lo hi : Q) : Q := Qmin (Qmax x lo) hi.

(** A float column that may hold [np.nan]. *)
Inductive cell : Type :=
| num (q : Q)
| nan.

(** [np.where(c, np.nan, x)] and [np.where(c, x, np.nan)] at one index. *)
Definition where_nan_else (c : bool) (x : Q) : cell := if c then nan else num x.
Definition where_else_nan (c : bool) (x : Q) : cell := if c then num x else nan.

(** ** Dictionaries *)

Definition dict (V : Type) : Type := list (string * V).

Fixpoint dict_get {V : Type} (d : dict V) (k : string) : option V :=
  match d with
  | [] => None
  | (k', v) :: d' => if String.eqb k' k then Some v else dict_get d' k
  end.

(** [d[k] = v]: an existing key keeps its place, a new one goes last. *)
Fixpoint dict_set {V : Type} (d : dict V) (k : string) (v : V) : dict V :=
  match d with
  | [] => [(k, v)]
  | (k', v') :: d' =>
      if String.eqb k' k then (k', v) :: d' else (k', v') :: dict_set d' k v
  end.

(** [d[k]] *)
Definition getitem {V : Type} (d : dict V) (k : string) : result V :=
  match dict_get d k with
  | Some v => Ok v
  | None => Raise KeyError
  end.

(** ** The numpy interface

    [np.random.default_rng(seed)] builds a generator whose state is
    determined by the seed; every sampler is a function of the state and
    returns the sample with the next state.  The fields give one sample;
    a call with [size=n] takes [n] of them in turn. *)

Class Numpy : Type := {
  G : Type;
  seed_state : Z -> G;
  gen_random : G -> Q * G;
  gen_integers : Z -> Z -> G -> Z * G;
  gen_lognormal : Q -> Q -> G -> Q * G;
  gen_normal : Q -> Q -> G -> Q * G;
  gen_beta : Q -> Q -> G -> Q * G;
  gen_binomial : Z -> Q -> G -> Z * G;
  gen_choice : list string -> option (list Q) -> G -> string * G;
  np_exp : Q -> Q;
  np_log : Q -> Q
}.

(** ** Tables *)

Record Config : Type := {
  seed : Z;
  n_accounts : Z;
  n_months : Z;
  rollover_start : Z;
  rollover_end : Z;
  close_rate : Q;
  contam_rate : Q;
  missing_engagement_rate : Q;
  missing_market_rate : Q;
  label_noise_rate : Q
}.

(** [Config(seed=..., n_accounts=..., n_months=...)] with the dataclass
    defaults for the other fields. *)
Definition mkConfig (s a m : Z) : Config :=
  {| seed := s; n_accounts := a; n_months := m;
     rollover_start := 1; rollover_end := 12;
     close_rate := 1 # 1000; contam_rate := 3 # 100;
     missing_engagement_rate := 5 # 100; missing_market_rate := 2 # 100;
     label_noise_rate := 1 # 100 |}.

Module Accounts.
Record row : Type := {
  account_id : Z;
  rollover_month : Z;
  baseline_balance : Q;
  age_band : string;
  tenure_band : string;
  risk_tolerance : string;
  digital_engagement_score : Q;
  advisor_flag : Z;
  region : string;
  contactable_email : Z;
  contactable_sms : Z;
  preferred_channel : string;
  account_fe : Q
}.
End Accounts.

Module Campaigns.
Record row : Type := {
  nudge_wave_id : Z;
  channel : string;
  region : string;
  start_month : Z;
  end_month : Z;
  eligibility_rule : string;
  intensity : Z
}.
End Campaigns.

Module Panel.
Record row : Type := {
  account_id : Z;
  calendar_month : Z;
  months_since_rollover : Z;
  active_flag : Z;
  eligible_flag : Z;
  market_return : Q;
  seasonality_index : Q;
  nudge_email : Z;
  nudge_sms : Z;
  nudge_inapp : Z;
  exposure_email : Z;
  exposure_sms : Z;
  exposure_inapp : Z;
  email_wave_id : option Z;
  sms_wave_id : option Z;
  inapp_wave_id : option Z;
  treatment_any : Z;
  treatment_intensity : Z;
  first_exposure_month : Z;
  event_time : cell;
  treated : Z;
  post : Z;
  invested_true : Z;
  invested_flag : Z;
  invested_status : Z;
  invest_amount : Q;
  account_closed : Z;
  missing_engagement : Z;
  engagement_obs : cell;
  missing_market_return : Z;
  market_return_obs : cell
}.
End Panel.

Module DidReady.
Record row : Type := {
  account_id : Z;
  calendar_month : Z;
  months_since_rollover : Z;
  treated : Z;
  post : Z;
  event_time : cell;
  treatment_any : Z;
  treatment_intensity : Z;
  invested_flag : Z;
  invest_amount : Q;
  active_flag : Z;
  eligible_flag : Z
}.
End DidReady.

Section Generator.

Context {np : Numpy}.

(** [np.random.default_rng(seed)]: a negative seed is rejected. *)
Definition default_rng (s : Z) : result G :=
  if s <? 0 then Raise ValueError else Ok (seed_state s).

(** [n] samples in turn. *)
Fixpoint draw_n {A : Type} (f : G -> A * G) (n : nat) (g : G) : list A * G :=
  match n with
  | O => ([], g)
  | S n' =>
      let (x, g1) := f g in
      let (xs, g2) := draw_n f n' g1 in
      (x :: xs, g2)
  end.

(** A sampler called with [size=k] for a Python int [k]: numpy raises
    [ValueError] (negative dimensions are not allowed) when [k < 0]. *)
Definition draw_size {A : Type} (f : G -> A * G) (k : Z) (g : G)
  : result (list A * G) :=
  if k <? 0 then Raise ValueError else Ok (draw_n f (Z.to_nat k) g).

(** [rng.integers(lo, hi, size=k)]: numpy also raises [ValueError] (low >=
    high) on an empty range. *)
Definition draw_integers (lo hi k : Z) (g : G) : result (list Z * G) :=
  if hi <=? lo then Raise ValueError else draw_size (gen_integers lo hi) k g.

Definition logistic (x : Q) : Q := (1 / (1 + np_exp (- x)))%Q.

(** [np.arange(lo, hi)] *)
Definition arange (lo hi : Z) : list Z :=
  map (fun i => lo + Z.of_nat i) (seq 0 (Z.to_nat (hi - lo))).

Definition build_accounts (rng : G) (cfg : Config)
  : result (list Accounts.row * G) :=
  let n := n_accounts cfg in
  let account_id := arange 1 (n + 1) in
  '(rollover_month, rng) <-
     draw_integers (rollover_start cfg) (rollover_end cfg + 1) n rng ;;
  '(baseline_balance, rng) <-
     draw_size (gen_lognormal (103 # 10) (8 # 10)) n rng ;;
  let baseline_balance :=
    map (fun b => clip b (inject_Z 1000) (inject_Z 500000)) baseline_balance in
  '(age_band, rng) <-
     draw_size (gen_choice ["18-34"; "35-49"; "50-64"; "65+"]
                  (Some [20 # 100; 30 # 100; 30 # 100; 20 # 100])) n rng ;;
  '(tenure_band, rng) <-
     draw_size (gen_choice ["0-2y"; "3-5y"; "6y+"]
                  (Some [35 # 100; 35 # 100; 30 # 100])) n rng ;;
  '(risk_tolerance, rng) <-
     draw_size (gen_choice ["low"; "medium"; "high"]
                  (Some [40 # 100; 40 # 100; 20 # 100])) n rng ;;
  '(engagement, rng) <- draw_size (gen_beta (inject_Z 2) (inject_Z 5)) n rng ;;
  '(advisor_flag, rng) <- draw_size (gen_binomial 1 (25 # 100)) n rng ;;
  let regions := ["North"; "South"; "East"; "West"] in
  '(region, rng) <- draw_size (gen_choice regions None) n rng ;;
  '(contactable_email, rng) <- draw_size (gen_binomial 1 (85 # 100)) n rng ;;
  '(contactable_sms, rng) <- draw_size (gen_binomial 1 (55 # 100)) n rng ;;
  '(preferred_channel, rng) <-
     draw_size (gen_choice ["email"; "sms"; "inapp"]
                  (Some [50 # 100; 15 # 100; 35 # 100])) n rng ;;
  '(account_fe, rng) <- draw_size (gen_normal 0 (5 # 10)) n rng ;;
  Ok (map (fun i =>
             {| Accounts.account_id := nth i account_id 0;
                Accounts.rollover_month := nth i rollover_month 0;
                Accounts.baseline_balance := nth i baseline_balance 0%Q;
                Accounts.age_band := nth i age_band "";
                Accounts.tenure_band := nth i tenure_band "";
                Accounts.risk_tolerance := nth i risk_tolerance "";
                Accounts.digital_engagement_score := nth i engagement 0%Q;
                Accounts.advisor_flag := nth i advisor_flag 0;
                Accounts.region := nth i region "";
                Accounts.contactable_email := nth i contactable_email 0;
                Accounts.contactable_sms := nth i contactable_sms 0;
                Accounts.preferred_channel := nth i preferred_channel "";
                Accounts.account_fe := nth i account_fe 0%Q |})
          (seq 0 (List.length account_id)),
      rng).

End Generator.

(** ** Campaign scheduler *)

Definition regions : list string := ["North"; "South"; "East"; "West"].
Definition channels : list string := ["email"; "sms"; "inapp"].
Definition region_start : dict Z :=
  [("North", 4); ("South", 7); ("East", 10); ("West", 13)].
Definition channel_offset : dict Z := [("email", 0); ("sms", 1); ("inapp", 2)].
Definition channel_intensity : dict Z := [("email", 1); ("sms", 2); ("inapp", 1)].

Definition channel_maps : Type := dict (dict Z).

(** The loop state of [build_campaigns]. *)
Record sched : Type := {
  rows : list Campaigns.row;
  wave_id : Z;
  map_by_channel : channel_maps;
  map_end_by_channel : channel_maps;
  map_wave_by_channel : channel_maps
}.

(** [m[channel][region] = v] *)
Definition set2 (m : channel_maps) (channel region : string) (v : Z)
  : result channel_maps :=
  inner <- getitem m channel ;;
  Ok (dict_set m channel (dict_set inner region v)).

(** The body of the inner loop. *)
Definition schedule_wave (cfg : Config) (region channel : string) (s : sched)
  : result sched :=
  rs <- getitem region_start region ;;
  co <- getitem channel_offset channel ;;
  let start := rs + co in
  let end_ := Z.min (start + 12) (n_months cfg) in
  intensity <- getitem channel_intensity channel ;;
  let row :=
    {| Campaigns.nudge_wave_id := wave_id s;
       Campaigns.channel := channel;
       Campaigns.region := region;
       Campaigns.start_month := start;
       Campaigns.end_month := end_;
       Campaigns.eligibility_rule :=
         "months_since_rollover in [1,6] and not invested";
       Campaigns.intensity := intensity |} in
  m1 <- set2 (map_by_channel s) channel region start ;;
  m2 <- set2 (map_end_by_channel s) channel region end_ ;;
  m3 <- set2 (map_wave_by_channel s) channel region (wave_id s) ;;
  Ok {| rows := rows s ++ [row];
        wave_id := wave_id s + 1;
        map_by_channel := m1;
        map_end_by_channel := m2;
        map_wave_by_channel := m3 |}.

(** [for x in xs: s = body x s], stopping at the first exception. *)
Fixpoint for_each {A S : Type} (xs : list A) (body : A -> S -> result S) (s : S)
  : result S :=
  match xs with
  | [] => Ok s
  | x :: xs' => s' <- body x s ;; for_each xs' body s'
  end.

Definition empty_maps : channel_maps := [("email", []); ("sms", []); ("inapp", [])].

Definition build_campaigns (cfg : Config)
  : result (list Campaigns.row * dict channel_maps) :=
  let init := {| rows := []; wave_id := 1;
                 map_by_channel := empty_maps;
                 map_end_by_channel := empty_maps;
                 map_wave_by_channel := empty_maps |} in
  s <- for_each regions
         (fun region s =>
            for_each channels (fun channel s => schedule_wave cfg region channel s) s)
         init ;;
  Ok (rows s,
      [("start", map_by_channel s);
       ("end", map_end_by_channel s);
       ("wave", map_wave_by_channel s)]).

(** ** Monthly panel engine *)

(** The entry of month [m] (from 1) and account index [i] (from 0) in a
    table that stacks one frame of [n] rows per month, as the panel does. *)
Definition row_at {A : Type} (table : list A) (n : nat) (m : Z) (i : nat)
  : option A :=
  if (1 <=? m) && (i <? n)%nat
  then nth_error table (Z.to_nat (m - 1) * n + i)
  else None.

(** The first-exposure month shown by the record of the month before, and
    the unset value [-1] before the first month. *)
Definition previous_first_exposure_month (panel : list Panel.row) (n : nat)
    (m : Z) (i : nat) : Z :=
  match row_at panel n (m - 1) i with
  | Some r0 => Panel.first_exposure_month r0
  | None => -1
  end.

(** [np.vectorize(d.get)(keys)].  numpy calls [d.get] on the first key to
    choose the element type: an int gives an int array, and a later [None]
    cannot be cast to it; [None] gives an object array that holds ints and
    [None]s alike.  With no key at all numpy refuses the call. *)
Definition vectorize_get (d : dict Z) (keys : list string)
  : result (list (option Z)) :=
  match keys with
  | [] => Raise ValueError
  | k0 :: _ =>
      let out := map (dict_get d) keys in
      match dict_get d k0 with
      | None => Ok out
      | Some _ =>
          if forallb (fun o => match o with Some _ => true | None => false end) out
          then Ok out else Raise TypeError
      end
  end.

(** The campaign windows and wave ids looked up for one account. *)
Record mapping : Type := {
  email_start : option Z;
  sms_start : option Z;
  inapp_start : option Z;
  email_end : option Z;
  sms_end : option Z;
  inapp_end : option Z;
  email_wave : option Z;
  sms_wave : option Z;
  inapp_wave : option Z
}.

(** [(m >= start) & (m <= end)] at one index; comparing an int with [None]
    raises [TypeError]. *)
Definition window (m : Z) (start end_ : option Z) : result bool :=
  match start, end_ with
  | Some s, Some e => Ok ((m >=? s) && (m <=? e))
  | _, _ => Raise TypeError
  end.

(** [email_active], [sms_active], [inapp_active] at one index. *)
Definition windows (m : Z) (mp : mapping) : result (bool * bool * bool) :=
  e <- window m (email_start mp) (email_end mp) ;;
  s <- window m (sms_start mp) (sms_end mp) ;;
  i <- window m (inapp_start mp) (inapp_end mp) ;;
  Ok (e, s, i).

Fixpoint map_result {A B : Type} (f : A -> result B) (l : list A)
  : result (list B) :=
  match l with
  | [] => Ok []
  | x :: l' => y <- f x ;; ys <- map_result f l' ;; Ok (y :: ys)
  end.


(** The state carried across months, at one index. *)
Record state : Type := {
  invested_status : bool;
  account_closed : bool;
  first_exposure_month : Z
}.

Definition init_state : state :=
  {| invested_status := false; account_closed := false;
     first_exposure_month := -1 |}.

(** The samples one account receives in one month, in the order in which
    the loop body asks for them. *)
Record draws : Type := {
  u_email_assign : Q;
  u_sms_assign : Q;
  u_inapp_assign : Q;
  u_email_open : Q;
  u_sms_open : Q;
  u_inapp_open : Q;
  u_email_contam : Q;
  u_sms_contam : Q;
  u_inapp_contam : Q;
  u_invest : Q;
  u_noise : Q;
  allocation_rate : Q;
  u_close : Q;
  u_missing_engagement : Q;
  u_missing_market : Q
}.

(** What one account sees of month [m]. *)
Record month_in : Type := {
  in_m : Z;
  in_market_return : Q;
  in_seasonality : Q;
  in_active : bool * bool * bool;
  in_draws : draws
}.

Section Engine.

Context {np : Numpy}.

(** The loop body of [generate_panel] at one index: the row of the month's
    frame and the state carried to the next month. *)
Definition account_month (cfg : Config) (a : Accounts.row) (mp : mapping)
    (s : state) (x : month_in) : Panel.row * state :=
  let m := in_m x in
  let d := in_draws x in
  let '(email_active, sms_active, inapp_active) := in_active x in
  let balance := Accounts.baseline_balance a in
  let engagement := Accounts.digital_engagement_score a in
  let contactable_email := negb (Accounts.contactable_email a =? 0) in
  let contactable_sms := negb (Accounts.contactable_sms a =? 0) in
  let msr := m - Accounts.rollover_month a in
  let active := msr >=? 0 in
  let eligible :=
    active && (msr >=? 1) && (msr <=? 6)
    && negb (invested_status s) && negb (account_closed s) in
  let p_assign :=
    ((5 # 100) + (10 # 100) * engagement
     + (5 # 100) * b2q (Qgtb balance (inject_Z 50000)))%Q in
  let email_assign :=
    eligible && contactable_email && email_active
    && Qltb (u_email_assign d) p_assign in
  let sms_assign :=
    eligible && contactable_sms && sms_active
    && Qltb (u_sms_assign d) p_assign in
  let inapp_assign := eligible && inapp_active && Qltb (u_inapp_assign d) p_assign in
  let email_open_prob := clip ((35 # 100) + (25 # 100) * engagement) 0 (95 # 100) in
  let sms_open_prob := clip ((55 # 100) + (20 # 100) * engagement) 0 (98 # 100) in
  let inapp_open_prob := clip ((45 # 100) + (30 # 100) * engagement) 0 (98 # 100) in
  let exposure_email := email_assign && Qltb (u_email_open d) email_open_prob in
  let exposure_sms := sms_assign && Qltb (u_sms_open d) sms_open_prob in
  let exposure_inapp := inapp_assign && Qltb (u_inapp_open d) inapp_open_prob in
  let exposure_email :=
    exposure_email
    || (eligible && negb email_assign && Qltb (u_email_contam d) (contam_rate cfg)) in
  let exposure_sms :=
    exposure_sms
    || (eligible && negb sms_assign && Qltb (u_sms_contam d) (contam_rate cfg)) in
  let exposure_inapp :=
    exposure_inapp
    || (eligible && negb inapp_assign && Qltb (u_inapp_contam d) (contam_rate cfg)) in
  let n_exposed :=
    Z.b2z exposure_email + Z.b2z exposure_sms + Z.b2z exposure_inapp in
  let treat_effect :=
    ((35 # 100) * b2q exposure_email
     + (45 # 100) * b2q exposure_sms
     + (30 # 100) * b2q exposure_inapp
     - (15 # 100) * inject_Z (Z.max (n_exposed - 1) 0))%Q in
  let msr_for_model := if active then msr else 0 in
  let logit :=
    (- (42 # 10)
     + (35 # 100) * np_log balance
     + (60 # 100) * engagement
     - (10 # 100) * inject_Z msr_for_model
     + (20 # 100) * in_market_return x
     + (15 # 100) * inject_Z (Accounts.advisor_flag a)
     + in_seasonality x
     + Accounts.account_fe a)%Q in
  let p := logistic (logit + treat_effect) in
  let p :=
    (p * b2q active * b2q (negb (invested_status s))
     * b2q (negb (account_closed s)))%Q in
  let invest_true := Qltb (u_invest d) p in
  let invested_flag := invest_true in
  let noise_mask := Qltb (u_noise d) (label_noise_rate cfg) in
  let invested_flag := if noise_mask then negb invested_flag else invested_flag in
  let invest_amount :=
    if invest_true then (balance * allocation_rate d)%Q else 0%Q in
  let newly_exposed := (n_exposed >? 0) && (first_exposure_month s <? 0) in
  let first_exposure_month' :=
    if newly_exposed then m else first_exposure_month s in
  let invested_status' := invested_status s || invest_true in
  let closed_now := negb (account_closed s) && Qltb (u_close d) (close_rate cfg) in
  let account_closed' := account_closed s || closed_now in
  let missing_engagement :=
    Qltb (u_missing_engagement d) (missing_engagement_rate cfg) in
  let engagement_obs := where_nan_else missing_engagement engagement in
  let missing_market := Qltb (u_missing_market d) (missing_market_rate cfg) in
  let market_return_obs := where_nan_else missing_market (in_market_return x) in
  let event_time :=
    where_else_nan (first_exposure_month' >=? 0)
      (inject_Z (m - first_exposure_month')) in
  let treated := Z.b2z (first_exposure_month' >=? 0) in
  let post := Z.b2z ((first_exposure_month' >=? 0) && (m >=? first_exposure_month')) in
  ({| Panel.account_id := Accounts.account_id a;
      Panel.calendar_month := m;
      Panel.months_since_rollover := msr;
      Panel.active_flag := Z.b2z active;
      Panel.eligible_flag := Z.b2z eligible;
      Panel.market_return := in_market_return x;
      Panel.seasonality_index := in_seasonality x;
      Panel.nudge_email := Z.b2z email_assign;
      Panel.nudge_sms := Z.b2z sms_assign;
      Panel.nudge_inapp := Z.b2z inapp_assign;
      Panel.exposure_email := Z.b2z exposure_email;
      Panel.exposure_sms := Z.b2z exposure_sms;
      Panel.exposure_inapp := Z.b2z exposure_inapp;
      Panel.email_wave_id := email_wave mp;
      Panel.sms_wave_id := sms_wave mp;
      Panel.inapp_wave_id := inapp_wave mp;
      Panel.treatment_any := Z.b2z (n_exposed >? 0);
      Panel.treatment_intensity := n_exposed;
      Panel.first_exposure_month := first_exposure_month';
      Panel.event_time := event_time;
      Panel.treated := treated;
      Panel.post := post;
      Panel.invested_true := Z.b2z invest_true;
      Panel.invested_flag := Z.b2z invested_flag;
      Panel.invested_status := Z.b2z invested_status';
      Panel.invest_amount := invest_amount;
      Panel.account_closed := Z.b2z account_closed';
      Panel.missing_engagement := Z.b2z missing_engagement;
      Panel.engagement_obs := engagement_obs;
      Panel.missing_market_return := Z.b2z missing_market;
      Panel.market_return_obs := market_return_obs |},
   {| invested_status := invested_status';
      account_closed := account_closed';
      first_exposure_month := first_exposure_month' |}).

Definition default_draws : draws :=
  {| u_email_assign := 0; u_sms_assign := 0; u_inapp_assign := 0;
     u_email_open := 0; u_sms_open := 0; u_inapp_open := 0;
     u_email_contam := 0; u_sms_contam := 0; u_inapp_contam := 0;
     u_invest := 0; u_noise := 0; allocation_rate := 0; u_close := 0;
     u_missing_engagement := 0; u_missing_market := 0 |}.

(** The fifteen vectors of samples of one month, one call of size [n]
    each, in the order of the loop body; row [i] of the result gathers
    index [i] of each vector.  No call depends on the month's
    computation, which is why they can be gathered first. *)
Definition month_draws (n : nat) (rng : G) : list draws * G :=
  let (r_email_assign, rng) := draw_n gen_random n rng in
  let (r_sms_assign, rng) := draw_n gen_random n rng in
  let (r_inapp_assign, rng) := draw_n gen_random n rng in
  let (r_email_open, rng) := draw_n gen_random n rng in
  let (r_sms_open, rng) := draw_n gen_random n rng in
  let (r_inapp_open, rng) := draw_n gen_random n rng in
  let (r_email_contam, rng) := draw_n gen_random n rng in
  let (r_sms_contam, rng) := draw_n gen_random n rng in
  let (r_inapp_contam, rng) := draw_n gen_random n rng in
  let (r_invest, rng) := draw_n gen_random n rng in
  let (r_noise, rng) := draw_n gen_random n rng in
  let (r_allocation, rng) := draw_n (gen_beta (inject_Z 5) (inject_Z 2)) n rng in
  let (r_close, rng) := draw_n gen_random n rng in
  let (r_missing_engagement, rng) := draw_n gen_random n rng in
  let (r_missing_market, rng) := draw_n gen_random n rng in
  (map (fun i =>
          {| u_email_assign := nth i r_email_assign 0%Q;
             u_sms_assign := nth i r_sms_assign 0%Q;
             u_inapp_assign := nth i r_inapp_assign 0%Q;
             u_email_open := nth i r_email_open 0%Q;
             u_sms_open := nth i r_sms_open 0%Q;
             u_inapp_open := nth i r_inapp_open 0%Q;
             u_email_contam := nth i r_email_contam 0%Q;
             u_sms_contam := nth i r_sms_contam 0%Q;
             u_inapp_contam := nth i r_inapp_contam 0%Q;
             u_invest := nth i r_invest 0%Q;
             u_noise := nth i r_noise 0%Q;
             allocation_rate := nth i r_allocation 0%Q;
             u_close := nth i r_close 0%Q;
             u_missing_engagement := nth i r_missing_engagement 0%Q;
             u_missing_market := nth i r_missing_market 0%Q |})
       (seq 0 n),
   rng).

(** [l[i]] for a Python int [i]. *)
Definition item (l : list Q) (i : Z) : result Q :=
  let len := Z.of_nat (List.length l) in
  let j := if i <? 0 then i + len else i in
  if (0 <=? j) && (j <? len) then Ok (nth (Z.to_nat j) l 0%Q)
  else Raise IndexError.

Definition default_account : Accounts.row :=
  {| Accounts.account_id := 0; Accounts.rollover_month := 0;
     Accounts.baseline_balance := 0; Accounts.age_band := "";
     Accounts.tenure_band := ""; Accounts.risk_tolerance := "";
     Accounts.digital_engagement_score := 0; Accounts.advisor_flag := 0;
     Accounts.region := ""; Accounts.contactable_email := 0;
     Accounts.contactable_sms := 0; Accounts.preferred_channel := "";
     Accounts.account_fe := 0 |}.

Definition default_mapping : mapping :=
  {| email_start := None; sms_start := None; inapp_start := None;
     email_end := None; sms_end := None; inapp_end := None;
     email_wave := None; sms_wave := None; inapp_wave := None |}.

(** What account [i] sees of a month. *)
Definition month_in_at (m : Z) (mr seas : Q) (acts : list (bool * bool * bool))
    (ds : list draws) (i : nat) : month_in :=
  {| in_m := m; in_market_return := mr; in_seasonality := seas;
     in_active := nth i acts (false, false, false);
     in_draws := nth i ds default_draws |}.

(** One iteration of the month loop over all [n] accounts: the month's
    frame, the carried state and the generator after the month's calls.
    All the arrays have length [n], so no default of [nth] is ever read. *)
Definition month_frame (cfg : Config) (accounts : list Accounts.row)
    (mappings : list mapping) (market_return seasonality : list Q)
    (m : Z) (st : list state) (rng : G)
  : result (list Panel.row * list state * G) :=
  let n := List.length accounts in
  acts <- map_result (windows m) mappings ;;
  let (ds, rng) := month_draws n rng in
  mr <- item market_return (m - 1) ;;
  seas <- item seasonality (m - 1) ;;
  let out :=
    map (fun i =>
           account_month cfg (nth i accounts default_account)
             (nth i mappings default_mapping) (nth i st init_state)
             (month_in_at m mr seas acts ds i))
        (seq 0 n) in
  Ok (map fst out, map snd out, rng).

(** [for m in range(...)]: the frames appended to [rows]. *)
Fixpoint month_loop (cfg : Config) (accounts : list Accounts.row)
    (mappings : list mapping) (market_return seasonality : list Q)
    (months : list Z) (st : list state) (rng : G)
  : result (list (list Panel.row)) :=
  match months with
  | [] => Ok []
  | m :: months' =>
      '(frame, st, rng) <-
         month_frame cfg accounts mappings market_return seasonality m st rng ;;
      rest <-
         month_loop cfg accounts mappings market_return seasonality months' st rng ;;
      Ok (frame :: rest)
  end.

Definition seasonality_template : list Q :=
  [20 # 100; 10 # 100; 5 # 100; 0; - (5 # 100); 0;
   5 # 100; 5 # 100; 0; 5 # 100; 10 # 100; 20 # 100]%Q.

(** [np.tile(l, reps)] for a one-dimensional [l]. *)
Definition tile (l : list Q) (reps : Z) : list Q :=
  List.concat (repeat l (Z.to_nat reps)).

(** [l[:k]] for a Python int [k]. *)
Definition slice_to (l : list Q) (k : Z) : list Q :=
  if k <? 0 then firstn (List.length l - Z.to_nat (- k)) l
  else firstn (Z.to_nat k) l.

(** [pd.concat(frames, ignore_index=True)]: pandas raises [ValueError]
    (no objects to concatenate) on an empty list. *)
Definition pd_concat {A : Type} (frames : list (list A)) : result (list A) :=
  match frames with
  | [] => Raise ValueError
  | _ => Ok (List.concat frames)
  end.

(** The per-account campaign mapping, lines 153-163. *)
Definition campaign_mapping (campaigns_map : dict channel_maps)
    (region : list string) : result (list mapping) :=
  email_start <- (c <- getitem campaigns_map "start" ;; d <- getitem c "email" ;;
                  vectorize_get d region) ;;
  sms_start <- (c <- getitem campaigns_map "start" ;; d <- getitem c "sms" ;;
                vectorize_get d region) ;;
  inapp_start <- (c <- getitem campaigns_map "start" ;; d <- getitem c "inapp" ;;
                  vectorize_get d region) ;;
  email_end <- (c <- getitem campaigns_map "end" ;; d <- getitem c "email" ;;
                vectorize_get d region) ;;
  sms_end <- (c <- getitem campaigns_map "end" ;; d <- getitem c "sms" ;;
              vectorize_get d region) ;;
  inapp_end <- (c <- getitem campaigns_map "end" ;; d <- getitem c "inapp" ;;
                vectorize_get d region) ;;
  email_wave <- (c <- getitem campaigns_map "wave" ;; d <- getitem c "email" ;;
                 vectorize_get d region) ;;
  sms_wave <- (c <- getitem campaigns_map "wave" ;; d <- getitem c "sms" ;;
               vectorize_get d region) ;;
  inapp_wave <- (c <- getitem campaigns_map "wave" ;; d <- getitem c "inapp" ;;
                 vectorize_get d region) ;;
  Ok (map (fun i =>
             {| email_start := nth i email_start None;
                sms_start := nth i sms_start None;
                inapp_start := nth i inapp_start None;
                email_end := nth i email_end None;
                sms_end := nth i sms_end None;
                inapp_end := nth i inapp_end None;
                email_wave := nth i email_wave None;
                sms_wave := nth i sms_wave None;
                inapp_wave := nth i inapp_wave None |})
          (seq 0 (List.length region))).

(** Monthly macro factors, lines 166-169. *)
Definition macro_factors (cfg : Config) (rng : G)
  : result (list Q * list Q * G) :=
  '(market_return, rng) <-
     draw_size (gen_normal (4 # 1000) (3 # 100)) (n_months cfg) rng ;;
  let seasonality :=
    slice_to (tile seasonality_template
                (Qceiling (inject_Z (n_months cfg) / inject_Z 12)))
      (n_months cfg) in
  let seasonality := map (fun x => (x * (10 # 100))%Q) seasonality in
  Ok (market_return, seasonality, rng).

Definition generate_panel (accounts : list Accounts.row)
    (campaigns_map : dict channel_maps) (cfg : Config)
  : result (list Panel.row) :=
  rng <- default_rng (seed cfg + 1) ;;
  let n := List.length accounts in
  mappings <- campaign_mapping campaigns_map (map Accounts.region accounts) ;;
  '(market_return, seasonality, rng) <- macro_factors cfg rng ;;
  frames <-
    month_loop cfg accounts mappings market_return seasonality
      (arange 1 (n_months cfg + 1)) (repeat init_state n) rng ;;
  pd_concat frames.

(** The samples behind the panel: frame by frame, the [draws] of every
    account, taken from the same generator by the same calls as in
    [generate_panel]. *)
Fixpoint loop_draws (n : nat) (months : list Z) (rng : G) : list (list draws) :=
  match months with
  | [] => []
  | _ :: months' =>
      let (ds, rng) := month_draws n rng in
      ds :: loop_draws n months' rng
  end.

Definition panel_draws (accounts : list Accounts.row) (cfg : Config)
  : result (list draws) :=
  rng <- default_rng (seed cfg + 1) ;;
  '(_, _, rng) <- macro_factors cfg rng ;;
  Ok (List.concat
        (loop_draws (List.length accounts) (arange 1 (n_months cfg + 1)) rng)).

(** The months of one account in turn: its rows, and the state it carries
    into month number [k] (counted from 0). *)
Fixpoint account_run (cfg : Config) (a : Accounts.row) (mp : mapping)
    (s : state) (xs : list month_in) : list Panel.row :=
  match xs with
  | [] => []
  | x :: xs' =>
      let (r, s') := account_month cfg a mp s x in
      r :: account_run cfg a mp s' xs'
  end.

Fixpoint state_after (cfg : Config) (a : Accounts.row) (mp : mapping)
    (s : state) (xs : list month_in) (k : nat) : state :=
  match k, xs with
  | S k', x :: xs' =>
      state_after cfg a mp (snd (account_month cfg a mp s x)) xs' k'
  | _, _ => s
  end.

(** The trajectory of account [i] through a panel: what the account saw
    month by month, the samples among it being those of [D], and the rows
    of the account in the panel being the rows of its months in turn. *)
Definition trajectory (cfg : Config) (n : nat) (i : nat) (a : Accounts.row)
    (panel : list Panel.row) (D : list draws) (mp : mapping)
    (xs : list month_in) : Prop :=
  List.length xs = Z.to_nat (n_months cfg) /\
  (forall k x, nth_error xs k = Some x ->
     in_m x = 1 + Z.of_nat k /\
     row_at D n (1 + Z.of_nat k) i = Some (in_draws x)) /\
  (forall m r,
     row_at panel n m i = Some r <->
     exists k x,
       m = 1 + Z.of_nat k /\ nth_error xs k = Some x /\
       r = fst (account_month cfg a mp
                  (state_after cfg a mp init_state xs k) x)).

Definition build_did_ready (panel : list Panel.row) : list DidReady.row :=
  map (fun r =>
         {| DidReady.account_id := Panel.account_id r;
            DidReady.calendar_month := Panel.calendar_month r;
            DidReady.months_since_rollover := Panel.months_since_rollover r;
            DidReady.treated := Panel.treated r;
            DidReady.post := Panel.post r;
            DidReady.event_time := Panel.event_time r;
            DidReady.treatment_any := Panel.treatment_any r;
            DidReady.treatment_intensity := Panel.treatment_intensity r;
            DidReady.invested_flag := Panel.invested_flag r;
            DidReady.invest_amount := Panel.invest_amount r;
            DidReady.active_flag := Panel.active_flag r;
            DidReady.eligible_flag := Panel.eligible_flag r |})
      panel.

(** ** The command line *)

Record args : Type := {
  outdir : string;
  arg_seed : Z;
  arg_accounts : Z;
  arg_months : Z
}.

(** Where a run of [main] stands when it stops: the tables bound so far,
    whether the four [to_csv] calls were reached, and the exception that
    ended the run, if any.  Writing itself (the file system) is outside
    the model. *)
Record run : Type := {
  accounts : option (list Accounts.row);
  campaigns : option (list Campaigns.row);
  panel : option (list Panel.row);
  did_ready : option (list DidReady.row);
  wrote : bool;
  raised : option exn
}.

Definition main (a : args) : run :=
  let cfg := mkConfig (arg_seed a) (arg_accounts a) (arg_months a) in
  match default_rng (seed cfg) with
  | Raise e => {| accounts := None; campaigns := None; panel := None;
                  did_ready := None; wrote := false; raised := Some e |}
  | Ok rng =>
  match build_accounts rng cfg with
  | Raise e => {| accounts := None; campaigns := None; panel := None;
                  did_ready := None; wrote := false; raised := Some e |}
  | Ok (accounts, _) =>
  match build_campaigns cfg with
  | Raise e => {| accounts := Some accounts; campaigns := None; panel := None;
                  did_ready := None; wrote := false; raised := Some e |}
  | Ok (campaigns, maps) =>
  match generate_panel accounts maps cfg with
  | Raise e => {| accounts := Some accounts; campaigns := Some campaigns;
                  panel := None; did_ready := None; wrote := false;
                  raised := Some e |}
  | Ok panel =>
      let did_ready := build_did_ready panel in
      {| accounts := Some accounts; campaigns := Some campaigns;
         panel := Some panel; did_ready := Some did_ready; wrote := true;
         raised := None |}
  end end end end.

End Engine.

(** ** A generator to run the model

    A linear congruential generator with rational samplers, and rational
    approximations of [exp] and [log] rounded to 24 binary digits.  It
    stands in for numpy's bit generator and float routines wherever the
    model is run on a concrete input; the theorems hold for every
    [Numpy]. *)

Module Reference.

Definition advance (s : Z) : Z :=
  (s * 6364136223846793005 + 1442695040888963407) mod 18446744073709551616.

Definition random (s : Z) : Q * Z :=
  let s' := advance s in ((s' / 281474976710656) # 65536, s').

Definition fix24 (q : Q) : Q := Qfloor (q * inject_Z 16777216) # 16777216.

Fixpoint square_n (n : nat) (q : Q) : Q :=
  match n with
  | O => q
  | S n' => square_n n' (fix24 (q * q))
  end.

Definition exp (x : Q) : Q :=
  let y := fix24 (x / inject_Z 64) in
  square_n 6
    (fix24 (1 + y + y * y / inject_Z 2 + y * y * y / inject_Z 6
            + y * y * y * y / inject_Z 24)).

Definition log (x : Q) : Q :=
  if Qle_bool x 0 then 0%Q
  else
    let k := Z.log2 (Qfloor x) in
    let m := (x / inject_Z (2 ^ k))%Q in
    let z := fix24 ((m - 1) / (m + 1)) in
    let z2 := fix24 (z * z) in
    fix24 (inject_Z k * (693147 # 1000000)
           + inject_Z 2 * z
             * (1 + z2 / inject_Z 3 + z2 * z2 / inject_Z 5
                + z2 * z2 * z2 / inject_Z 7)).

Definition normal (mu sigma : Q) (s : Z) : Q * Z :=
  let (u1, s) := random s in
  let (u2, s) := random s in
  let (u3, s) := random s in
  let (u4, s) := random s in
  (fix24 (mu + sigma * (1732 # 1000) * (u1 + u2 + u3 + u4 - inject_Z 2)), s).

Definition lognormal (mu sigma : Q) (s : Z) : Q * Z :=
  let (x, s) := normal mu sigma s in (exp x, s).

Definition beta (a b : Q) (s : Z) : Q * Z :=
  let (u, s) := random s in ((a + u) / (a + b + 1), s)%Q.

Definition integers (lo hi : Z) (s : Z) : Z * Z :=
  let (u, s) := random s in (lo + Qfloor (u * inject_Z (hi - lo)), s).

Fixpoint trials (n : nat) (p : Q) (s : Z) : Z * Z :=
  match n with
  | O => (0, s)
  | S n' =>
      let (u, s) := random s in
      let (k, s) := trials n' p s in
      (Z.b2z (Qltb u p) + k, s)
  end.

Definition binomial (n : Z) (p : Q) (s : Z) : Z * Z := trials (Z.to_nat n) p s.

Fixpoint pick (l : list string) (ps : list Q) (u : Q) : string :=
  match l, ps with
  | [], _ => ""
  | [x], _ => x
  | x :: _, [] => x
  | x :: l', p :: ps' => if Qltb u p then x else pick l' ps' (u - p)
  end.

Definition choice (l : list string) (p : option (list Q)) (s : Z)
  : string * Z :=
  let (u, s) := random s in
  match p with
  | Some ps => (pick l ps u, s)
  | None =>
      (nth (Z.to_nat (Qfloor (u * inject_Z (Z.of_nat (List.length l))))) l "", s)
  end.

Definition numpy : Numpy :=
  {| G := Z;
     seed_state := fun s => advance (advance (s + 1));
     gen_random := random;
     gen_integers := integers;
     gen_lognormal := lognormal;
     gen_normal := normal;
     gen_beta := beta;
     gen_binomial := binomial;
     gen_choice := choice;
     np_exp := exp;
     np_log := log |}.

End Reference.

(** ** A small run

    Seed 42, two accounts, twelve months, on the reference generator.
    Account 1 (index 0, region North) rolls over in month 6; in month 8 it
    is eligible, is shown the in-app nudge and invests. *)

Module Demo.

Definition cli : args :=
  {| outdir := "data"; arg_seed := 42; arg_accounts := 2; arg_months := 12 |}.

Definition cfg : Config := mkConfig 42 2 12.

Definition accounts : list Accounts.row :=
  match accounts (main (np := Reference.numpy) cli) with
  | Some a => a
  | None => []
  end.

Definition maps : dict channel_maps :=
  match build_campaigns cfg with
  | Ok (_, m) => m
  | Raise _ => []
  end.

Definition panel : list Panel.row :=
  match panel (main (np := Reference.numpy) cli) with
  | Some p => p
  | None => []
  end.


End Demo.

(** ** Reading the tables *)

(** [campaigns_map[kind][channel].get(region)], with [None] also when one
    of the two outer keys is missing. *)
Definition campaign_lookup (campaigns_map : dict channel_maps)
    (kind channel region : string) : option Z :=
  match getitem campaigns_map kind with
  | Ok c =>
      match getitem c channel with
      | Ok d => dict_get d region
      | Raise _ => None
      end
  | Raise _ => None
  end.

(** The fourteen samples of [rng.random] among the [draws] of one account
    and month. *)
Definition uniform_samples (d : draws) : list Q :=
  [u_email_assign d; u_sms_assign d; u_inapp_assign d;
   u_email_open d; u_sms_open d; u_inapp_open d;
   u_email_contam d; u_sms_contam d; u_inapp_contam d;
   u_invest d; u_noise d; u_close d;
   u_missing_engagement d; u_missing_market d].

(** The status and closure shown by the record of the month before, and
    [0] before the first month. *)
Definition previous_invested_status (panel : list Panel.row) (n : nat)
    (m : Z) (i : nat) : Z :=
  match row_at panel n (m - 1) i with
  | Some r0 => Panel.invested_status r0
  | None => 0
  end.

Definition previous_account_closed (panel : list Panel.row) (n : nat)
    (m : Z) (i : nat) : Z :=
  match row_at panel n (m - 1) i with
  | Some r0 => Panel.account_closed r0
  | None => 0
  end.

(** What a month looked like to an account, read back from the arrays of
    [generate_panel]: its windows, and the month's macro factors. *)
Definition month_env (mp : mapping) (market seas : list Q) (x : month_in)
  : Prop :=
  windows (in_m x) mp = Ok (in_active x) /\
  item market (in_m x - 1) = Ok (in_market_return x) /\
  item seas (in_m x - 1) = Ok (in_seasonality x).

(** Month [m] lies in the window that [campaigns_map] gives a channel in a
    region. *)
Definition in_window (campaigns_map : dict channel_maps)
    (channel region : string) (m : Z) : Prop :=
  exists s e,
    campaign_lookup campaigns_map "start" channel region = Some s /\
    campaign_lookup campaigns_map "end" channel region = Some e /\
    s <= m <= e.

(** ** Runs with other rates

    The accounts and maps of the small run, with every account closed in
    its first month ([close_rate] 1), and with contamination, label noise
    and closure switched off. *)

Module Edge.

Definition closing_cfg : Config :=
  {| seed := 42; n_accounts := 2; n_months := 12;
     rollover_start := 1; rollover_end := 12;
     close_rate := 1; contam_rate := 3 # 100;
     missing_engagement_rate := 5 # 100; missing_market_rate := 2 # 100;
     label_noise_rate := 1 # 100 |}.

Definition quiet_cfg : Config :=
  {| seed := 42; n_accounts := 2; n_months := 12;
     rollover_start := 1; rollover_end := 12;
     close_rate := 0; contam_rate := 0;
     missing_engagement_rate := 5 # 100; missing_market_rate := 2 # 100;
     label_noise_rate := 0 |}.

Definition panel_of (cfg : Config) : list Panel.row :=
  match generate_panel (np := Reference.numpy) Demo.accounts Demo.maps cfg with
  | Ok p => p
  | Raise _ => []
  end.

Definition campaigns : list Campaigns.row :=
  match build_campaigns Demo.cfg with
  | Ok (c, _) => c
  | Raise _ => []
  end.

(** An account of a region that no campaign covers. *)
Definition stray : Accounts.row :=
  {| Accounts.account_id := 1; Accounts.rollover_month := 1;
     Accounts.baseline_balance := inject_Z 20000; Accounts.age_band := "35-49";
     Accounts.tenure_band := "0-2y"; Accounts.risk_tolerance := "low";
     Accounts.digital_engagement_score := 1 # 2; Accounts.advisor_flag := 0;
     Accounts.region := "Centre"; Accounts.contactable_email := 1;
     Accounts.contactable_sms := 1; Accounts.preferred_channel := "email";
     Accounts.account_fe := 0 |}.

End Edge.

(** * Properties *)

(** ** Lists and the error monad *)

Lemma bind_ok {A B : Type} (c : result A) (k : A -> result B) (b : B) :
  bind c k = Ok b -> exists a, c = Ok a /\ k a = Ok b.
Proof.
  destruct c as [a|e]; simpl; intros H; [eauto | discriminate].
Qed.

Ltac inv_bind H :=
  let a := fresh "a" in
  let Ha := fresh "Ha" in
  apply bind_ok in H; destruct H as (a & Ha & H).

Lemma nth_map_seq {A : Type} (f : nat -> A) (n i : nat) (d : A) :
  (i < n)%nat -> nth i (map f (seq 0 n)) d = f i.
Proof.
  intros Hi.
  rewrite (nth_indep _ d (f 0%nat)) by (rewrite length_map, length_seq; exact Hi).
  rewrite map_nth, seq_nth by exact Hi.
  reflexivity.
Qed.

Lemma nth_error_map_seq {A : Type} (f : nat -> A) (n i : nat) :
  (i < n)%nat -> nth_error (map f (seq 0 n)) i = Some (f i).
Proof.
  intros Hi.
  rewrite nth_error_map, nth_error_seq.
  destruct (Nat.ltb_spec i n); [reflexivity | lia].
Qed.

Lemma nth_error_concat {A : Type} (n : nat) (frames : list (list A)) :
  Forall (fun f => List.length f = n) frames ->
  forall k i, (i < n)%nat ->
  nth_error (List.concat frames) (k * n + i) =
  match nth_error frames k with
  | Some f => nth_error f i
  | None => None
  end.
Proof.
  induction 1 as [|f frames Hf Hall IH]; intros k i Hi.
  - simpl. now rewrite !nth_error_nil.
  - destruct k as [|k]; simpl.
    + rewrite nth_error_app1 by lia. reflexivity.
    + rewrite nth_error_app2 by lia.
      replace (n + k * n + i - List.length f)%nat with (k * n + i)%nat by lia.
      apply IH, Hi.
Qed.

Lemma arange_length (lo hi : Z) : List.length (arange lo hi) = Z.to_nat (hi - lo).
Proof. unfold arange. now rewrite length_map, length_seq. Qed.

Lemma arange_nth_error (lo hi : Z) (k : nat) :
  (k < Z.to_nat (hi - lo))%nat ->
  nth_error (arange lo hi) k = Some (lo + Z.of_nat k).
Proof.
  intros H. unfold arange.
  now rewrite (nth_error_map_seq (fun i => lo + Z.of_nat i)).
Qed.

Section Proofs.

Context {np : Numpy}.

Lemma draw_n_length {A : Type} (f : G -> A * G) (n : nat) (g : G) :
  List.length (fst (draw_n f n g)) = n.
Proof.
  revert g. induction n as [|n IH]; intros g; simpl; [reflexivity|].
  destruct (f g) as [x g1]. specialize (IH g1).
  destruct (draw_n f n g1) as [xs g2]. simpl in *. now rewrite IH.
Qed.

Lemma draw_n_Forall {A : Type} (P : A -> Prop) (f : G -> A * G) :
  (forall g, P (fst (f g))) ->
  forall n g, Forall P (fst (draw_n f n g)).
Proof.
  intros Hf. induction n as [|n IH]; intros g; simpl; [constructor|].
  specialize (Hf g). destruct (f g) as [x g1]. specialize (IH g1).
  destruct (draw_n f n g1) as [xs g2]. simpl in *. now constructor.
Qed.

Lemma month_draws_length (n : nat) (rng : G) :
  List.length (fst (month_draws n rng)) = n.
Proof.
  unfold month_draws.
  repeat match goal with
         | |- context [draw_n ?f ?k ?g] => destruct (draw_n f k g)
         end.
  simpl. now rewrite length_map, length_seq.
Qed.

(** The allocation fraction of account [i] is one of the month's
    [beta(5, 2)] samples. *)
Lemma month_draws_allocation (P : Q -> Prop) (n : nat) (rng : G) (i : nat) :
  (forall g, P (fst (gen_beta (inject_Z 5) (inject_Z 2) g))) ->
  (i < n)%nat ->
  P (allocation_rate (nth i (fst (month_draws n rng)) default_draws)).
Proof.
  intros HP Hi. unfold month_draws.
  repeat match goal with
         | |- context [draw_n gen_random ?k ?g] =>
             destruct (draw_n gen_random k g)
         end.
  match goal with
  | |- context [draw_n ?f ?k ?g] =>
      pose proof (draw_n_Forall P f HP k g) as Hall;
      pose proof (draw_n_length f k g) as Hlen;
      destruct (draw_n f k g) as [alloc g']
  end.
  repeat match goal with
         | |- context [draw_n gen_random ?k ?g] =>
             destruct (draw_n gen_random k g)
         end.
  simpl in *. rewrite nth_map_seq by exact Hi. simpl.
  rewrite Forall_forall in Hall. apply Hall, nth_In. lia.
Qed.

(** ** From the frames to one account *)

Lemma month_frame_spec cfg accounts mappings market seas m st rng frame st' rng' :
  month_frame cfg accounts mappings market seas m st rng = Ok (frame, st', rng') ->
  rng' = snd (month_draws (List.length accounts) rng) /\
  exists acts mr se,
    forall i, (i < List.length accounts)%nat ->
    let x := month_in_at m mr se acts
               (fst (month_draws (List.length accounts) rng)) i in
    let out := account_month cfg (nth i accounts default_account)
                 (nth i mappings default_mapping) (nth i st init_state) x in
    nth_error frame i = Some (fst out) /\ nth i st' init_state = snd out.
Proof.
  unfold month_frame. intros H.
  inv_bind H. destruct (month_draws (List.length accounts) rng) as [ds g] eqn:Hd.
  inv_bind H. inv_bind H. injection H as <- <- <-.
  split; [reflexivity|].
  exists a, a0, a1. intros i Hi. simpl. rewrite !map_map. split.
  - now rewrite (nth_error_map_seq _ _ _ Hi).
  - now rewrite (nth_map_seq _ _ _ _ Hi).
Qed.

Lemma month_frame_length cfg accounts mappings market seas m st rng frame st' rng' :
  month_frame cfg accounts mappings market seas m st rng = Ok (frame, st', rng') ->
  List.length frame = List.length accounts.
Proof.
  unfold month_frame. intros H.
  inv_bind H. destruct (month_draws (List.length accounts) rng) as [ds g].
  inv_bind H. inv_bind H. injection H as <- <- <-.
  now rewrite !length_map, length_seq.
Qed.

Lemma month_loop_frames cfg accounts mappings market seas :
  forall months st rng frames,
  month_loop cfg accounts mappings market seas months st rng = Ok frames ->
  Forall (fun f => List.length f = List.length accounts) frames /\
  List.length frames = List.length months.
Proof.
  induction months as [|m months IH]; intros st rng frames H; simpl in H.
  - injection H as <-. split; [constructor | reflexivity].
  - inv_bind H. destruct a as [[frame st'] rng'].
    inv_bind H. injection H as <-.
    apply IH in Ha0. destruct Ha0 as [Hall Hlen].
    split; [constructor; [eapply month_frame_length; eassumption | exact Hall]
           | simpl; now rewrite Hlen].
Qed.

Lemma month_loop_column cfg accounts mappings market seas i :
  (i < List.length accounts)%nat ->
  forall months st rng frames,
  month_loop cfg accounts mappings market seas months st rng = Ok frames ->
  exists xs,
    map in_m xs = months /\
    map in_draws xs =
      map (fun ds => nth i ds default_draws)
        (loop_draws (List.length accounts) months rng) /\
    map (fun f => nth_error f i) frames =
      map Some (account_run cfg (nth i accounts default_account)
                  (nth i mappings default_mapping) (nth i st init_state) xs).
Proof.
  intros Hi. induction months as [|m months IH]; intros st rng frames H; simpl in H.
  - injection H as <-. exists []. repeat split.
  - inv_bind H. destruct a as [[frame st'] rng'].
    inv_bind H. injection H as <-.
    apply month_frame_spec in Ha. destruct Ha as (-> & acts & mr & se & Hrow).
    specialize (Hrow i Hi). simpl in Hrow. destruct Hrow as [Hf Hs].
    apply IH in Ha0. destruct Ha0 as (xs & Hm & Hd & Hc).
    exists (month_in_at m mr se acts
              (fst (month_draws (List.length accounts) rng)) i :: xs).
    simpl. destruct (month_draws (List.length accounts) rng) as [ds g]. simpl in *.
    rewrite Hm, Hd, Hc, Hf, Hs.
    destruct (account_month _ _ _ _ _) as [r s']. repeat split.
Qed.

Lemma loop_draws_frames (n : nat) :
  forall months rng,
  Forall (fun ds => List.length ds = n) (loop_draws n months rng) /\
  List.length (loop_draws n months rng) = List.length months.
Proof.
  induction months as [|m months IH]; intros rng; simpl.
  - split; [constructor | reflexivity].
  - pose proof (month_draws_length n rng) as Hl.
    destruct (month_draws n rng) as [ds g]. destruct (IH g) as [Hall Hlen].
    simpl in *. split; [now constructor | now rewrite Hlen].
Qed.

Lemma account_run_nth cfg a mp :
  forall xs s k,
  nth_error (account_run cfg a mp s xs) k =
  match nth_error xs k with
  | Some x => Some (fst (account_month cfg a mp (state_after cfg a mp s xs k) x))
  | None => None
  end.
Proof.
  induction xs as [|x xs IH]; intros s k.
  - destruct k; reflexivity.
  - destruct k as [|k]; simpl; destruct (account_month cfg a mp s x) as [r s'];
      simpl; [reflexivity | apply IH].
Qed.

Lemma state_after_0 cfg a mp s xs : state_after cfg a mp s xs 0 = s.
Proof. destruct xs; reflexivity. Qed.

Lemma state_after_S cfg a mp :
  forall xs s k x,
  nth_error xs k = Some x ->
  state_after cfg a mp s xs (S k) =
  snd (account_month cfg a mp (state_after cfg a mp s xs k) x).
Proof.
  induction xs as [|y xs IH]; intros s k x H.
  - destruct k; discriminate.
  - destruct k as [|k]; simpl in H.
    + injection H as ->. simpl. now rewrite state_after_0.
    + change (state_after cfg a mp s (y :: xs) (S (S k)))
        with (state_after cfg a mp (snd (account_month cfg a mp s y)) xs (S k)).
      rewrite (IH _ _ _ H). reflexivity.
Qed.

(** A stacked table read through its columns. *)
Lemma row_at_column {A B : Type} (g : A -> B) (n : nat) (frames : list (list A))
    (col : list B) (i : nat) :
  Forall (fun f => List.length f = n) frames ->
  (i < n)%nat ->
  map (fun f => option_map g (nth_error f i)) frames = map Some col ->
  forall m, 1 <= m ->
  option_map g (row_at (List.concat frames) n m i) =
  nth_error col (Z.to_nat (m - 1)).
Proof.
  intros Hall Hi Hcol m Hm. unfold row_at.
  destruct (Z.leb_spec 1 m); [|lia].
  destruct (Nat.ltb_spec i n); [|lia]. simpl.
  rewrite (nth_error_concat n frames Hall _ _ Hi).
  assert (E : nth_error (map (fun f => option_map g (nth_error f i)) frames)
                (Z.to_nat (m - 1)) =
              nth_error (map Some col) (Z.to_nat (m - 1))) by now rewrite Hcol.
  rewrite !nth_error_map in E.
  destruct (nth_error frames (Z.to_nat (m - 1))) as [f|];
    destruct (nth_error col (Z.to_nat (m - 1))) as [c|]; simpl in E;
    try discriminate; [|reflexivity].
  injection E as E. exact E.
Qed.

Lemma panel_trajectory accounts maps cfg panel :
  generate_panel accounts maps cfg = Ok panel ->
  exists D,
    panel_draws accounts cfg = Ok D /\
    forall i a, nth_error accounts i = Some a ->
    exists mp xs, trajectory cfg (List.length accounts) i a panel D mp xs.
Proof.
  unfold generate_panel, panel_draws. intros H.
  apply bind_ok in H as (rng0 & Hrng & H). rewrite Hrng. simpl.
  apply bind_ok in H as (a0 & Hmap & H).
  apply bind_ok in H as ([[market seas] rng] & Hmac & H). rewrite Hmac. simpl.
  apply bind_ok in H as (a2 & Ha2 & H).
  eexists. split; [reflexivity|].
  intros i acc Hacc.
  assert (Hi : (i < List.length accounts)%nat)
    by (apply nth_error_Some; congruence).
  destruct (month_loop_frames _ _ _ _ _ _ _ _ _ Ha2) as [Hall Hlen].
  destruct (month_loop_column cfg accounts a0 market seas i Hi _ _ _ _ Ha2)
    as (xs & Hm & Hd & Hc).
  assert (Hnth : nth i accounts default_account = acc)
    by (now apply nth_error_nth).
  rewrite Hnth in Hc.
  rewrite nth_repeat in Hc.
  exists (nth i a0 default_mapping), xs.
  assert (Hlx : List.length xs = Z.to_nat (n_months cfg)).
  { rewrite <- (length_map in_m), Hm, arange_length. f_equal. lia. }
  destruct (loop_draws_frames (List.length accounts)
              (arange 1 (n_months cfg + 1)) rng) as [HDall HDlen].
  split; [exact Hlx|]. split.
  - intros k x Hx.
    assert (Hk : (k < List.length xs)%nat) by (apply nth_error_Some; congruence).
    assert (Hmk : nth_error (map in_m xs) k = Some (in_m x))
      by (now rewrite nth_error_map, Hx).
    rewrite Hm, arange_nth_error in Hmk by lia.
    split; [congruence|].
    assert (Hcol : map (fun ds => option_map (fun d => d) (nth_error ds i))
                     (loop_draws (List.length accounts)
                        (arange 1 (n_months cfg + 1)) rng) =
                   map Some (map in_draws xs)).
    { rewrite Hd, map_map. apply map_ext_in. intros ds Hin.
      rewrite Forall_forall in HDall. specialize (HDall ds Hin).
      rewrite (nth_error_nth' ds default_draws) by lia. reflexivity. }
    pose proof (row_at_column (fun d => d) _ _ _ i HDall Hi Hcol
                  (1 + Z.of_nat k) ltac:(lia)) as E.
    replace (Z.to_nat (1 + Z.of_nat k - 1)) with k in E by lia.
    rewrite nth_error_map, Hx in E. simpl in E.
    destruct (row_at _ _ _ _); simpl in E; congruence.
  - assert (Hp : panel = List.concat a2)
      by (destruct a2; simpl in H; [discriminate | now injection H]).
    rewrite Hp. clear Hp H.
    assert (Hcol : map (fun f => option_map (fun r => r) (nth_error f i)) a2 =
                   map Some (account_run cfg acc (nth i a0 default_mapping)
                               init_state xs)).
    { rewrite <- Hc. apply map_ext. intros f. now destruct (nth_error f i). }
    intros m r. split.
    + intros Hr.
      assert (Hm1 : 1 <= m).
      { unfold row_at in Hr. destruct (Z.leb_spec 1 m); [lia | discriminate]. }
      pose proof (row_at_column (fun r => r) _ _ _ i Hall Hi Hcol m Hm1) as E.
      rewrite Hr in E. simpl in E. rewrite account_run_nth in E.
      destruct (nth_error xs (Z.to_nat (m - 1))) as [x|] eqn:Hx; [|discriminate].
      exists (Z.to_nat (m - 1)), x. injection E as E.
      repeat split; [lia | exact Hx | exact E].
    + intros (k & x & -> & Hx & ->).
      pose proof (row_at_column (fun r => r) _ _ _ i Hall Hi Hcol
                    (1 + Z.of_nat k) ltac:(lia)) as E.
      replace (Z.to_nat (1 + Z.of_nat k - 1)) with k in E by lia.
      rewrite account_run_nth, Hx in E.
      destruct (row_at _ _ _ _); simpl in E; congruence.
Qed.

(** ** One month of one account *)

Section Step.

Variables (cfg : Config) (a : Accounts.row) (mp : mapping).
Variables (s : state) (x : month_in).

Let r : Panel.row := fst (account_month cfg a mp s x).
Let s' : state := snd (account_month cfg a mp s x).

Ltac step := subst r s'; unfold account_month;
  destruct (in_active x) as [[ea sa] ia]; cbn.

Lemma step_calendar_month : Panel.calendar_month r = in_m x.
Proof. step. reflexivity. Qed.

Lemma step_eligible :
  Panel.eligible_flag r = 1 ->
  invested_status s = false /\ account_closed s = false.
Proof.
  step. destruct (invested_status s), (account_closed s);
    rewrite ?andb_false_r; simpl; intros H; try discriminate; now split.
Qed.

Lemma step_status_row : Panel.invested_status r = Z.b2z (invested_status s').
Proof. step. reflexivity. Qed.

Lemma step_status :
  invested_status s' = invested_status s || (Panel.invested_true r =? 1).
Proof. step. f_equal. now destruct (Qltb _ _). Qed.

Lemma step_fem_row :
  Panel.first_exposure_month r = first_exposure_month s'.
Proof. step. reflexivity. Qed.

Lemma step_fem :
  first_exposure_month s' =
  if (Panel.treatment_any r =? 1) && (first_exposure_month s <? 0)
  then in_m x else first_exposure_month s.
Proof.
  step.
  match goal with |- context [(?n >? 0) && _] => destruct (n >? 0) end;
    reflexivity.
Qed.

Lemma step_event_time :
  Panel.event_time r =
  where_else_nan (Panel.first_exposure_month r >=? 0)
    (inject_Z (Panel.calendar_month r - Panel.first_exposure_month r)).
Proof. step. reflexivity. Qed.

Lemma step_treated :
  Panel.treated r = Z.b2z (Panel.first_exposure_month r >=? 0).
Proof. step. reflexivity. Qed.

Lemma step_post :
  Panel.post r =
  Z.b2z ((Panel.first_exposure_month r >=? 0)
         && (Panel.calendar_month r >=? Panel.first_exposure_month r)).
Proof. step. reflexivity. Qed.

Lemma step_exposure :
  Panel.exposure_email r = 1 \/ Panel.exposure_sms r = 1
  \/ Panel.exposure_inapp r = 1 ->
  Panel.eligible_flag r = 1.
Proof.
  step.
  match goal with
  | |- context [Z.b2z (?e && negb (invested_status s) && negb (account_closed s))] =>
      destruct (e && negb (invested_status s) && negb (account_closed s))
  end; simpl; [reflexivity|].
  intros [H|[H|H]]; discriminate.
Qed.

Lemma step_treatment_any :
  Panel.treatment_any r = 1 <->
  (Panel.exposure_email r = 1 \/ Panel.exposure_sms r = 1
   \/ Panel.exposure_inapp r = 1).
Proof.
  step.
  repeat match goal with
         | |- context [Z.b2z (?b || ?c)] => destruct (b || c)
         end; simpl; intuition (try discriminate; auto).
Qed.

Lemma step_treatment_any_bool :
  Panel.treatment_any r = 0 \/ Panel.treatment_any r = 1.
Proof. step. match goal with |- context [Z.b2z ?b] => destruct b end; auto. Qed.

Lemma step_invested_true_bool :
  Panel.invested_true r = 0 \/ Panel.invested_true r = 1.
Proof. step. destruct (Qltb _ _); auto. Qed.

Lemma step_invested_flag :
  Panel.invested_flag r =
  if Qltb (u_noise (in_draws x)) (label_noise_rate cfg)
  then 1 - Panel.invested_true r else Panel.invested_true r.
Proof.
  step. destruct (Qltb (u_noise _) _); [|reflexivity].
  now destruct (Qltb _ _).
Qed.

Lemma step_invest_amount :
  Panel.invest_amount r =
  if Panel.invested_true r =? 1
  then (Accounts.baseline_balance a * allocation_rate (in_draws x))%Q
  else 0%Q.
Proof. step. now destruct (Qltb _ _). Qed.

Lemma step_eligible_bool :
  Panel.eligible_flag r = 0 \/ Panel.eligible_flag r = 1.
Proof. step. match goal with |- context [Z.b2z ?b] => destruct b end; auto. Qed.

Lemma step_closed_row : Panel.account_closed r = Z.b2z (account_closed s').
Proof. step. reflexivity. Qed.

Lemma step_eligible_active :
  Panel.eligible_flag r = 1 -> Panel.active_flag r = 1.
Proof.
  step.
  match goal with |- context [Z.b2z (?b && _ && _ && _ && _)] => destruct b end;
    simpl; [reflexivity | discriminate].
Qed.

Lemma step_account_id : Panel.account_id r = Accounts.account_id a.
Proof. step. reflexivity. Qed.

End Step.

(** ** The months of one account *)

Section Run.

Variables (cfg : Config) (a : Accounts.row) (mp : mapping).
Variable xs : list month_in.
Hypothesis months_in_order :
  forall k x, nth_error xs k = Some x -> in_m x = 1 + Z.of_nat k.

Local Abbreviation S_ k := (state_after cfg a mp init_state xs k).
Local Abbreviation row k x := (fst (account_month cfg a mp (S_ k) x)).

Lemma S_succ k x : nth_error xs k = Some x ->
  S_ (S k) = snd (account_month cfg a mp (S_ k) x).
Proof. apply state_after_S. Qed.

Lemma nth_error_below k k' (x' : month_in) :
  nth_error xs k' = Some x' -> (k < k')%nat -> exists x, nth_error xs k = Some x.
Proof.
  intros H Hk. destruct (nth_error xs k) as [x|] eqn:E; [eauto|].
  apply nth_error_None in E.
  assert (k' < List.length xs)%nat by (apply nth_error_Some; congruence). lia.
Qed.

Lemma status_step k x : nth_error xs k = Some x ->
  invested_status (S_ (S k)) =
  invested_status (S_ k) || (Panel.invested_true (row k x) =? 1).
Proof. intros H. rewrite (S_succ k x H). apply step_status. Qed.

Lemma status_mono k k' x' :
  nth_error xs k' = Some x' -> (k <= k')%nat ->
  invested_status (S_ k) = true -> invested_status (S_ k') = true.
Proof.
  intros Hx' Hk Hs. revert x' Hx'.
  induction Hk as [|k' Hk IH]; intros x' Hx'; [exact Hs|].
  destruct (nth_error_below k' (S k') x' Hx' ltac:(lia)) as [y Hy].
  rewrite (status_step k' y Hy), (IH y Hy). reflexivity.
Qed.

Lemma fem_step k x : nth_error xs k = Some x ->
  first_exposure_month (S_ (S k)) =
  if (Panel.treatment_any (row k x) =? 1) && (first_exposure_month (S_ k) <? 0)
  then 1 + Z.of_nat k else first_exposure_month (S_ k).
Proof.
  intros H. rewrite (S_succ k x H), step_fem.
  now rewrite (months_in_order k x H).
Qed.

Lemma fem_range k :
  (k <= List.length xs)%nat ->
  first_exposure_month (S_ k) = -1
  \/ 1 <= first_exposure_month (S_ k) <= Z.of_nat k.
Proof.
  induction k as [|k IH]; intros Hk.
  - left. now rewrite state_after_0.
  - destruct (nth_error xs k) as [x|] eqn:Hx;
      [|apply nth_error_None in Hx; lia].
    rewrite (fem_step k x Hx).
    destruct ((Panel.treatment_any (row k x) =? 1)
              && (first_exposure_month (S_ k) <? 0)); [right; lia|].
    destruct (IH ltac:(lia)) as [E|E]; [now left | right; lia].
Qed.

Lemma fem_stable k k' :
  (k <= k')%nat -> (k' <= List.length xs)%nat ->
  0 <= first_exposure_month (S_ k) ->
  first_exposure_month (S_ k') = first_exposure_month (S_ k).
Proof.
  intros Hk Hk' Hs. induction Hk as [|k' Hk IH]; [reflexivity|].
  destruct (nth_error xs k') as [x|] eqn:Hx;
    [|apply nth_error_None in Hx; lia].
  rewrite (fem_step k' x Hx), IH by lia.
  destruct (Z.ltb_spec (first_exposure_month (S_ k)) 0); [lia|].
  now rewrite andb_false_r.
Qed.

(** A set first-exposure month names the month in which it was set: the
    account was unexposed until then and exposed in that month. *)
Lemma fem_origin k :
  (k <= List.length xs)%nat ->
  0 <= first_exposure_month (S_ k) ->
  exists j x,
    (j < k)%nat /\ nth_error xs j = Some x /\
    first_exposure_month (S_ k) = 1 + Z.of_nat j /\
    first_exposure_month (S_ j) < 0 /\
    Panel.treatment_any (row j x) = 1.
Proof.
  induction k as [|k IH]; intros Hk Hs.
  - rewrite state_after_0 in Hs. simpl in Hs. lia.
  - destruct (nth_error xs k) as [x|] eqn:Hx;
      [|apply nth_error_None in Hx; lia].
    rewrite (fem_step k x Hx) in Hs |- *.
    destruct (Z.eqb_spec (Panel.treatment_any (row k x)) 1) as [Ht|Ht];
      destruct (Z.ltb_spec (first_exposure_month (S_ k)) 0) as [Hf|Hf];
      simpl in *.
    + exists k, x. repeat split; auto.
    + destruct (IH ltac:(lia) Hf) as (j & y & Hj & Hy & E & Hu & Ha).
      exists j, y. repeat split; auto.
    + lia.
    + destruct (IH ltac:(lia) Hf) as (j & y & Hj & Hy & E & Hu & Ha).
      exists j, y. repeat split; auto.
Qed.

(** An exposure sets the first-exposure month, if it was not set before. *)
Lemma exposure_sets_fem k x :
  nth_error xs k = Some x ->
  Panel.treatment_any (row k x) = 1 ->
  0 <= first_exposure_month (S_ (S k)).
Proof.
  intros Hx Ht. rewrite (fem_step k x Hx), Ht.
  destruct (Z.ltb_spec (first_exposure_month (S_ k)) 0);
    cbn [Z.eqb Pos.eqb andb]; lia.
Qed.

Lemma row_fem k x : nth_error xs k = Some x ->
  Panel.first_exposure_month (row k x) = first_exposure_month (S_ (S k)).
Proof. intros H. rewrite (S_succ k x H). apply step_fem_row. Qed.

Lemma row_status k x : nth_error xs k = Some x ->
  Panel.invested_status (row k x) = Z.b2z (invested_status (S_ (S k))).
Proof. intros H. rewrite (S_succ k x H). apply step_status_row. Qed.

Lemma row_closed k x : nth_error xs k = Some x ->
  Panel.account_closed (row k x) = Z.b2z (account_closed (S_ (S k))).
Proof. intros H. rewrite (S_succ k x H). apply step_closed_row. Qed.

Lemma row_month k x : nth_error xs k = Some x ->
  Panel.calendar_month (row k x) = 1 + Z.of_nat k.
Proof. intros H. rewrite step_calendar_month. now apply months_in_order. Qed.

End Run.

(** ** Rows of the panel *)

Lemma row_at_index {A : Type} (table : list A) (n : nat) (m : Z) (i : nat) (r : A) :
  row_at table n m i = Some r -> 1 <= m /\ (i < n)%nat.
Proof.
  unfold row_at. destruct (Z.leb_spec 1 m); [|discriminate].
  destruct (Nat.ltb_spec i n); [|discriminate]. auto.
Qed.

Lemma panel_row accounts maps cfg panel :
  generate_panel accounts maps cfg = Ok panel ->
  exists D,
    panel_draws accounts cfg = Ok D /\
    forall i m r, row_at panel (List.length accounts) m i = Some r ->
    exists a mp xs,
      nth_error accounts i = Some a /\
      trajectory cfg (List.length accounts) i a panel D mp xs.
Proof.
  intros H. destruct (panel_trajectory _ _ _ _ H) as (D & HD & Ht).
  exists D. split; [exact HD|]. intros i m r Hr.
  apply row_at_index in Hr. destruct Hr as [_ Hi].
  destruct (nth_error accounts i) as [a|] eqn:Ha;
    [|apply nth_error_None in Ha; lia].
  destruct (Ht i a Ha) as (mp & xs & Hx). eauto.
Qed.

(** Every row of the panel is the row of some month and account. *)
Lemma panel_In accounts maps cfg panel r :
  generate_panel accounts maps cfg = Ok panel ->
  In r panel ->
  exists m i, row_at panel (List.length accounts) m i = Some r.
Proof.
  intros H Hin.
  apply In_nth_error in Hin. destruct Hin as [j Hj].
  assert (Hn : (0 < List.length accounts)%nat).
  { unfold generate_panel in H.
    apply bind_ok in H as (rng0 & _ & H).
    apply bind_ok in H as (a0 & _ & H).
    apply bind_ok in H as ([[market seas] rng] & _ & H).
    apply bind_ok in H as (frames & Hl & H).
    assert (Hp : panel = List.concat frames)
      by (destruct frames; simpl in H; [discriminate | now injection H]).
    destruct (month_loop_frames _ _ _ _ _ _ _ _ _ Hl) as [Hall _].
    destruct (List.length accounts); [|lia].
    assert (E : List.concat frames = []).
    { clear -Hall. induction Hall as [|f fs Hf _ IH]; [reflexivity|].
      simpl. rewrite IH. destruct f; [reflexivity | discriminate]. }
    rewrite Hp, E in Hj. destruct j; discriminate. }
  exists (1 + Z.of_nat (j / List.length accounts)), (j mod List.length accounts)%nat.
  unfold row_at.
  destruct (Z.leb_spec 1 (1 + Z.of_nat (j / List.length accounts))); [|lia].
  pose proof (Nat.mod_upper_bound j (List.length accounts) ltac:(lia)) as Hlt.
  destruct (Nat.ltb_spec (j mod List.length accounts) (List.length accounts)); [|lia].
  cbn [andb]. rewrite <- Hj. f_equal.
  replace (Z.to_nat (1 + Z.of_nat (j / List.length accounts) - 1))
    with (j / List.length accounts)%nat by lia.
  rewrite Nat.mul_comm. symmetry. apply Nat.div_mod_eq.
Qed.

Lemma trajectory_months cfg n i a panel D mp xs :
  trajectory cfg n i a panel D mp xs ->
  forall k x, nth_error xs k = Some x -> in_m x = 1 + Z.of_nat k.
Proof. intros (_ & H & _) k x Hx. now apply H. Qed.

Lemma nth_error_length {A : Type} (l : list A) (k : nat) (x : A) :
  nth_error l k = Some x -> (S k <= List.length l)%nat.
Proof. intros H. apply nth_error_Some. congruence. Qed.

(** ** The panel *)

(** C10. In every account-month record [post] equals [treated]: a set
    first-exposure month is never later than the record's month. *)
Theorem post_equals_treated accounts maps cfg panel r :
  generate_panel accounts maps cfg = Ok panel ->
  In r panel ->
  Panel.post r = Panel.treated r.
Proof.
  intros H Hin.
  destruct (panel_In _ _ _ _ _ H Hin) as (m & i & Hr).
  destruct (panel_row _ _ _ _ H) as (D & _ & Hrow).
  destruct (Hrow i m r Hr) as (a & mp & xs & _ & Ht).
  pose proof (trajectory_months _ _ _ _ _ _ _ _ Ht) as Hm.
  destruct Ht as (_ & _ & Hrows).
  apply Hrows in Hr as (k & x & -> & Hx & ->).
  rewrite step_post, step_treated, (row_month cfg a mp xs Hm k x Hx),
    (row_fem cfg a mp xs k x Hx).
  destruct (fem_range cfg a mp xs Hm (S k) (nth_error_length _ _ _ Hx)) as [E|E].
  - rewrite E. reflexivity.
  - f_equal.
    destruct (Z.geb_spec (first_exposure_month
                            (state_after cfg a mp init_state xs (S k))) 0);
      [|reflexivity].
    destruct (Z.geb_spec (1 + Z.of_nat k)
                (first_exposure_month
                   (state_after cfg a mp init_state xs (S k))));
      [reflexivity | lia].
Qed.

(** C9. In every account-month record an exposure on any channel implies
    that the account is eligible in that record; hence it is active, and
    the record of the month before, if any, shows it neither invested nor
    closed. *)
Theorem exposure_implies_eligible accounts maps cfg panel i m r :
  generate_panel accounts maps cfg = Ok panel ->
  row_at panel (List.length accounts) m i = Some r ->
  Panel.exposure_email r = 1 \/ Panel.exposure_sms r = 1
  \/ Panel.exposure_inapp r = 1 ->
  Panel.eligible_flag r = 1 /\
  Panel.active_flag r = 1 /\
  forall r0, row_at panel (List.length accounts) (m - 1) i = Some r0 ->
    Panel.invested_status r0 = 0 /\ Panel.account_closed r0 = 0.
Proof.
  intros H Hr Hex.
  destruct (panel_row _ _ _ _ H) as (D & _ & Hrow).
  destruct (Hrow i m r Hr) as (a & mp & xs & _ & (_ & _ & Hrows)).
  apply Hrows in Hr as (k & x & -> & Hx & ->).
  apply step_exposure in Hex.
  split; [exact Hex|]. split; [now apply step_eligible_active|].
  intros r0 Hr0.
  apply Hrows in Hr0 as (k0 & x0 & Hk & Hx0 & ->).
  assert (k = S k0) by lia. subst k.
  apply step_eligible in Hex. destruct Hex as [Hi Hc].
  rewrite (row_status cfg a mp xs k0 x0 Hx0), (row_closed cfg a mp xs k0 x0 Hx0).
  now rewrite Hi, Hc.
Qed.

(** C1, as the code has it.  If [invested_status] is true in the record of
    month [m], then [eligible_flag] is false in every later record of the
    account; in the record of month [m] itself it is false when the
    investment was made before month [m] ([invested_true] is false
    there).  In the month of the investment eligibility was decided before
    the investment decision. *)
Theorem eligible_after_investment accounts maps cfg panel i m r :
  generate_panel accounts maps cfg = Ok panel ->
  row_at panel (List.length accounts) m i = Some r ->
  Panel.invested_status r = 1 ->
  (Panel.invested_true r = 0 -> Panel.eligible_flag r = 0) /\
  forall m' r',
    m < m' ->
    row_at panel (List.length accounts) m' i = Some r' ->
    Panel.eligible_flag r' = 0.
Proof.
  intros H Hr Hs.
  destruct (panel_row _ _ _ _ H) as (D & _ & Hrow).
  destruct (Hrow i m r Hr) as (a & mp & xs & _ & Ht).
  pose proof (trajectory_months _ _ _ _ _ _ _ _ Ht) as Hm.
  destruct Ht as (_ & _ & Hrows).
  apply Hrows in Hr as (k & x & -> & Hx & ->).
  rewrite (row_status cfg a mp xs k x Hx) in Hs.
  assert (Hk : invested_status (state_after cfg a mp init_state xs (S k)) = true)
    by (destruct (invested_status _); [reflexivity | discriminate]).
  clear Hs. split.
  - intros Ht.
    rewrite (status_step cfg a mp xs k x Hx), Ht, orb_false_r in Hk.
    destruct (step_eligible_bool cfg a mp
                (state_after cfg a mp init_state xs k) x) as [E|E]; [exact E|].
    apply step_eligible in E. destruct E as [E _]. congruence.
  - intros m' r' Hlt Hr'.
    apply Hrows in Hr' as (k' & x' & -> & Hx' & ->).
    pose proof (status_mono cfg a mp xs (S k) k' x' Hx' ltac:(lia) Hk) as Hk'.
    destruct (step_eligible_bool cfg a mp
                (state_after cfg a mp init_state xs k') x') as [E|E]; [exact E|].
    apply step_eligible in E. destruct E as [E _]. congruence.
Qed.

(** C8. [first_exposure_month] is assigned at most once.  In every month
    it becomes the current month exactly when it was unset and a channel
    exposure occurred in the month, and keeps its value otherwise; an unset
    value is [-1] and a set one is a month from 1 to the current month, so
    that it cannot be set a second time; once set it is the same in every
    later record. *)
Theorem first_exposure_month_set_once accounts maps cfg panel i m r :
  generate_panel accounts maps cfg = Ok panel ->
  row_at panel (List.length accounts) m i = Some r ->
  let previous :=
    previous_first_exposure_month panel (List.length accounts) m i in
  Panel.first_exposure_month r =
    (if (Panel.treatment_any r =? 1) && (previous <? 0) then m else previous) /\
  (Panel.first_exposure_month r = -1 \/ 1 <= Panel.first_exposure_month r <= m) /\
  (0 <= Panel.first_exposure_month r ->
   forall m' r',
     m <= m' ->
     row_at panel (List.length accounts) m' i = Some r' ->
     Panel.first_exposure_month r' = Panel.first_exposure_month r).
Proof.
  intros H Hr previous.
  destruct (panel_row _ _ _ _ H) as (D & _ & Hrow).
  destruct (Hrow i m r Hr) as (a & mp & xs & _ & Ht).
  pose proof (trajectory_months _ _ _ _ _ _ _ _ Ht) as Hm.
  destruct Ht as (_ & _ & Hrows).
  assert (Hprev : forall k x, nth_error xs k = Some x ->
            previous_first_exposure_month panel (List.length accounts)
              (1 + Z.of_nat k) i =
            first_exposure_month (state_after cfg a mp init_state xs k)).
  { intros k x Hx. unfold previous_first_exposure_month.
    destruct (row_at panel (List.length accounts) (1 + Z.of_nat k - 1) i)
      as [r0|] eqn:E.
    - apply Hrows in E as (k0 & x0 & Hk & Hx0 & ->).
      assert (k = S k0) by lia. subst k.
      apply (row_fem cfg a mp xs k0 x0 Hx0).
    - destruct k as [|k]; [now rewrite state_after_0|].
      destruct (nth_error_below xs k (S k) x Hx ltac:(lia)) as [y Hy].
      assert (E' : row_at panel (List.length accounts) (1 + Z.of_nat k) i =
                   Some (fst (account_month cfg a mp
                                (state_after cfg a mp init_state xs k) y)))
        by (apply Hrows; eauto).
      replace (1 + Z.of_nat (S k) - 1) with (1 + Z.of_nat k) in E by lia.
      congruence. }
  apply Hrows in Hr as (k & x & Em & Hx & ->).
  subst previous. rewrite Em, (Hprev k x Hx). clear Hprev.
  rewrite (row_fem cfg a mp xs k x Hx).
  split; [apply (fem_step cfg a mp xs Hm k x Hx)|].
  split.
  - destruct (fem_range cfg a mp xs Hm (S k) (nth_error_length _ _ _ Hx));
      [now left | right; lia].
  - intros Hset m' r' Hle Hr'.
    apply Hrows in Hr' as (k' & x' & -> & Hx' & ->).
    rewrite (row_fem cfg a mp xs k' x' Hx').
    apply (fem_stable cfg a mp xs Hm (S k) (S k')); [lia | | exact Hset].
    apply (nth_error_length _ _ _ Hx').
Qed.

(** C4. If the account was exposed on some channel in a month up to [m],
    the record of month [m] has a set [first_exposure_month] and
    [event_time = m - first_exposure_month]; if it was exposed in no month
    up to [m], [event_time] is [nan]. *)
Theorem event_time_since_first_exposure accounts maps cfg panel i m r :
  generate_panel accounts maps cfg = Ok panel ->
  row_at panel (List.length accounts) m i = Some r ->
  ((exists m0 r0,
      m0 <= m /\ row_at panel (List.length accounts) m0 i = Some r0 /\
      (Panel.exposure_email r0 = 1 \/ Panel.exposure_sms r0 = 1
       \/ Panel.exposure_inapp r0 = 1)) ->
   1 <= Panel.first_exposure_month r <= m /\
   Panel.event_time r = num (inject_Z (m - Panel.first_exposure_month r))) /\
  ((forall m0 r0,
      m0 <= m -> row_at panel (List.length accounts) m0 i = Some r0 ->
      Panel.exposure_email r0 <> 1 /\ Panel.exposure_sms r0 <> 1
      /\ Panel.exposure_inapp r0 <> 1) ->
   Panel.first_exposure_month r = -1 /\ Panel.event_time r = nan).
Proof.
  intros H Hr.
  destruct (panel_row _ _ _ _ H) as (D & _ & Hrow).
  destruct (Hrow i m r Hr) as (a & mp & xs & _ & Ht).
  pose proof (trajectory_months _ _ _ _ _ _ _ _ Ht) as Hm.
  destruct Ht as (_ & _ & Hrows).
  apply Hrows in Hr as (k & x & -> & Hx & ->).
  pose proof (nth_error_length _ _ _ Hx) as Hlen.
  rewrite step_event_time, (row_month cfg a mp xs Hm k x Hx),
    (row_fem cfg a mp xs k x Hx).
  split.
  - intros (m0 & r0 & Hle & Hr0 & Hex).
    apply Hrows in Hr0 as (k0 & x0 & -> & Hx0 & ->).
    apply step_treatment_any in Hex.
    pose proof (exposure_sets_fem cfg a mp xs Hm k0 x0 Hx0 Hex) as Hset.
    rewrite <- (fem_stable cfg a mp xs Hm (S k0) (S k) ltac:(lia) Hlen Hset)
      in Hset.
    destruct (fem_range cfg a mp xs Hm (S k) Hlen) as [E|E]; [lia|].
    split; [lia|].
    destruct (Z.geb_spec (first_exposure_month
                            (state_after cfg a mp init_state xs (S k))) 0);
      [reflexivity | lia].
  - intros Hnone.
    assert (E : first_exposure_month
                  (state_after cfg a mp init_state xs (S k)) = -1).
    { destruct (fem_range cfg a mp xs Hm (S k) Hlen) as [E|E]; [exact E|].
      destruct (fem_origin cfg a mp xs Hm (S k) Hlen ltac:(lia))
        as (j & y & Hj & Hy & _ & _ & Hany).
      assert (Hrj : row_at panel (List.length accounts) (1 + Z.of_nat j) i =
                    Some (fst (account_month cfg a mp
                                 (state_after cfg a mp init_state xs j) y)))
        by (apply Hrows; eauto).
      apply step_treatment_any in Hany.
      destruct (Hnone (1 + Z.of_nat j) _ ltac:(lia) Hrj) as (N1 & N2 & N3).
      destruct Hany as [?|[?|?]]; contradiction. }
    rewrite E. split; reflexivity.
Qed.

Lemma month_draws_allocation_all (P : Q -> Prop) (n : nat) (rng : G) :
  (forall g, P (fst (gen_beta (inject_Z 5) (inject_Z 2) g))) ->
  Forall (fun d => P (allocation_rate d)) (fst (month_draws n rng)).
Proof.
  intros HP. apply Forall_forall. intros d Hd.
  destruct (In_nth _ _ default_draws Hd) as (i & Hi & <-).
  rewrite month_draws_length in Hi.
  now apply month_draws_allocation.
Qed.

Lemma panel_draws_allocation (P : Q -> Prop) accounts cfg D :
  (forall g, P (fst (gen_beta (inject_Z 5) (inject_Z 2) g))) ->
  panel_draws accounts cfg = Ok D ->
  Forall (fun d => P (allocation_rate d)) D.
Proof.
  intros HP H. unfold panel_draws in H.
  apply bind_ok in H as (rng0 & _ & H).
  apply bind_ok in H as ([[market seas] rng] & _ & H).
  injection H as <-.
  generalize (arange 1 (n_months cfg + 1)). intros months. revert rng.
  induction months as [|m months IH]; intros rng; simpl; [constructor|].
  pose proof (month_draws_allocation_all P (List.length accounts) rng HP) as Hd.
  destruct (month_draws (List.length accounts) rng) as [ds g]. simpl in *.
  apply Forall_app. split; [exact Hd | apply IH].
Qed.

Lemma build_accounts_negative rng cfg :
  n_accounts cfg < 0 -> build_accounts rng cfg = Raise ValueError.
Proof.
  intros H. unfold build_accounts, draw_integers, draw_size.
  destruct (rollover_end cfg + 1 <=? rollover_start cfg); [reflexivity|].
  destruct (Z.ltb_spec (n_accounts cfg) 0); [reflexivity | lia].
Qed.

Lemma clip_lower (x lo hi : Q) : (lo <= hi)%Q -> (lo <= clip x lo hi)%Q.
Proof.
  intros H. unfold clip. apply Q.min_glb; [apply Q.le_max_r | exact H].
Qed.

(** The account generator clips every balance to at least 1000. *)
Lemma build_accounts_balance rng cfg accts rng' :
  build_accounts rng cfg = Ok (accts, rng') ->
  Forall (fun a => (inject_Z 1000 <= Accounts.baseline_balance a)%Q) accts.
Proof.
  unfold build_accounts. intros H.
  apply bind_ok in H as ([rollover rng1] & _ & H).
  apply bind_ok in H as ([balance rng2] & Hb & H).
  repeat (apply bind_ok in H as ([? ?] & _ & H)).
  injection H as <- _.
  unfold draw_size in Hb.
  destruct (n_accounts cfg <? 0); [discriminate|]. injection Hb as Hb.
  assert (Hlen : List.length balance = Z.to_nat (n_accounts cfg))
    by (change balance with (fst (balance, rng2)); rewrite <- Hb;
        apply draw_n_length).
  apply Forall_forall. intros a Ha.
  apply in_map_iff in Ha. destruct Ha as (i & <- & Hi).
  apply in_seq in Hi. rewrite arange_length in Hi. cbn [Accounts.baseline_balance].
  rewrite (nth_indep _ 0%Q (clip 0 (inject_Z 1000) (inject_Z 500000)))
    by (rewrite length_map; lia).
  rewrite (map_nth (fun b => clip b (inject_Z 1000) (inject_Z 500000))).
  apply clip_lower. discriminate.
Qed.

(** C5. In every account-month record [invest_amount > 0] exactly when
    [invested_true] holds; the amount is then the balance times the
    month's allocation fraction, a [beta(5, 2)] sample between 0 and 1, and
    it is zero otherwise.  The accounts are those of the account generator,
    whose balances are positive. *)
Theorem invest_amount_iff_invested_true rng0 cfg0 rng1
    accounts maps cfg panel i m r a :
  (forall g, 0 < fst (gen_beta (inject_Z 5) (inject_Z 2) g)
             /\ fst (gen_beta (inject_Z 5) (inject_Z 2) g) < 1)%Q ->
  build_accounts rng0 cfg0 = Ok (accounts, rng1) ->
  generate_panel accounts maps cfg = Ok panel ->
  row_at panel (List.length accounts) m i = Some r ->
  nth_error accounts i = Some a ->
  ((0 < Panel.invest_amount r)%Q <-> Panel.invested_true r = 1) /\
  exists D d,
    panel_draws accounts cfg = Ok D /\
    row_at D (List.length accounts) m i = Some d /\
    (0 < allocation_rate d /\ allocation_rate d < 1)%Q /\
    (Panel.invested_true r = 1 ->
     Panel.invest_amount r = (Accounts.baseline_balance a * allocation_rate d)%Q) /\
    (Panel.invested_true r <> 1 -> Panel.invest_amount r = 0%Q).
Proof.
  intros Hbeta Hacc H Hr Ha.
  assert (Hpos : (0 < Accounts.baseline_balance a)%Q).
  { pose proof (build_accounts_balance _ _ _ _ Hacc) as Hall.
    rewrite Forall_forall in Hall.
    apply Qlt_le_trans with (inject_Z 1000); [reflexivity|].
    apply Hall. eapply nth_error_In, Ha. }
  destruct (panel_row _ _ _ _ H) as (D & HD & Hrow).
  destruct (Hrow i m r Hr) as (a' & mp & xs & Ha' & (_ & Hin & Hrows)).
  assert (a' = a) by congruence. subst a'.
  apply Hrows in Hr as (k & x & -> & Hx & ->).
  destruct (Hin k x Hx) as [_ Hd].
  assert (Halloc : (0 < allocation_rate (in_draws x)
                    /\ allocation_rate (in_draws x) < 1)%Q).
  { pose proof (panel_draws_allocation (fun q => (0 < q /\ q < 1)%Q)
                  accounts cfg D Hbeta HD) as Hall.
    rewrite Forall_forall in Hall. apply Hall.
    unfold row_at in Hd.
    destruct ((1 <=? 1 + Z.of_nat k) && (i <? List.length accounts)%nat);
      [|discriminate].
    eapply nth_error_In, Hd. }
  rewrite step_invest_amount.
  split.
  - destruct (Z.eqb_spec (Panel.invested_true
                 (fst (account_month cfg a mp
                         (state_after cfg a mp init_state xs k) x))) 1) as [E|E].
    + split; [intros _; exact E|]. intros _.
      apply Qmult_lt_0_compat; [exact Hpos | apply Halloc].
    + split; [|contradiction]. intros Hlt. exfalso. revert Hlt. apply Qlt_irrefl.
  - exists D, (in_draws x). repeat split; try assumption; try apply Halloc.
    + intros E. now rewrite E.
    + intros E.
      destruct (Z.eqb_spec (Panel.invested_true
                 (fst (account_month cfg a mp
                         (state_after cfg a mp init_state xs k) x))) 1);
        [contradiction | reflexivity].
Qed.

(** C6. In every account-month record the observed [invested_flag] is the
    true outcome, negated exactly when the month's label-noise sample falls
    below [label_noise_rate]; and [invested_status] is the status of the
    month before (false before the first month) OR the true outcome, so
    that the noisy flag never enters the carried state. *)
Theorem label_noise_spares_state accounts maps cfg panel i m r :
  generate_panel accounts maps cfg = Ok panel ->
  row_at panel (List.length accounts) m i = Some r ->
  (Panel.invested_true r = 0 \/ Panel.invested_true r = 1) /\
  (exists D d,
     panel_draws accounts cfg = Ok D /\
     row_at D (List.length accounts) m i = Some d /\
     Panel.invested_flag r =
       if Qltb (u_noise d) (label_noise_rate cfg)
       then 1 - Panel.invested_true r else Panel.invested_true r) /\
  Panel.invested_status r =
    Z.lor
      match row_at panel (List.length accounts) (m - 1) i with
      | Some r0 => Panel.invested_status r0
      | None => 0
      end
      (Panel.invested_true r).
Proof.
  intros H Hr.
  destruct (panel_row _ _ _ _ H) as (D & HD & Hrow).
  destruct (Hrow i m r Hr) as (a & mp & xs & Ha & (_ & Hin & Hrows)).
  apply Hrows in Hr as (k & x & -> & Hx & ->).
  destruct (Hin k x Hx) as [_ Hd].
  split; [apply step_invested_true_bool|]. split.
  - exists D, (in_draws x). repeat split; try assumption.
    apply step_invested_flag.
  - rewrite (row_status cfg a mp xs k x Hx), (status_step cfg a mp xs k x Hx).
    assert (Hprev : match row_at panel (List.length accounts)
                            (1 + Z.of_nat k - 1) i with
                    | Some r0 => Panel.invested_status r0
                    | None => 0
                    end =
                    Z.b2z (invested_status (state_after cfg a mp init_state xs k))).
    { destruct (row_at panel (List.length accounts) (1 + Z.of_nat k - 1) i)
        as [r0|] eqn:E.
      - apply Hrows in E as (k0 & x0 & Hk & Hx0 & ->).
        assert (k = S k0) by lia. subst k.
        apply (row_status cfg a mp xs k0 x0 Hx0).
      - destruct k as [|k]; [now rewrite state_after_0|].
        destruct (nth_error_below xs k (S k) x Hx ltac:(lia)) as [y Hy].
        assert (E' : row_at panel (List.length accounts) (1 + Z.of_nat k) i =
                     Some (fst (account_month cfg a mp
                                  (state_after cfg a mp init_state xs k) y)))
          by (apply Hrows; eauto).
        replace (1 + Z.of_nat (S k) - 1) with (1 + Z.of_nat k) in E by lia.
        congruence. }
    rewrite Hprev.
    destruct (step_invested_true_bool cfg a mp
                (state_after cfg a mp init_state xs k) x) as [E|E];
      rewrite E; destruct (invested_status _); reflexivity.
Qed.

(** ** The command line *)


Lemma build_accounts_length rng cfg accts rng' :
  build_accounts rng cfg = Ok (accts, rng') ->
  List.length accts = Z.to_nat (n_accounts cfg).
Proof.
  unfold build_accounts. intros H.
  repeat (apply bind_ok in H as ([? ?] & _ & H)).
  injection H as <- _.
  rewrite length_map, length_seq, arange_length. f_equal. lia.
Qed.




End Proofs.

(** ** The campaign scheduler *)

(** C7. The scheduler returns twelve waves, exactly one for each region
    and channel; every wave starts at the base month of its region plus
    the offset of its channel and ends at [min(start + 12, n_months)],
    hence no later than [n_months]. *)
Theorem one_wave_per_region_and_channel (cfg : Config) :
  exists campaigns maps,
    build_campaigns cfg = Ok (campaigns, maps) /\
    List.length campaigns = 12%nat /\
    (forall region channel,
       In region regions -> In channel channels ->
       List.length
         (filter (fun w => String.eqb (Campaigns.region w) region
                           && String.eqb (Campaigns.channel w) channel)
            campaigns) = 1%nat) /\
    Forall (fun w =>
              In (Campaigns.region w) regions /\
              In (Campaigns.channel w) channels /\
              (exists base offset,
                 getitem region_start (Campaigns.region w) = Ok base /\
                 getitem channel_offset (Campaigns.channel w) = Ok offset /\
                 Campaigns.start_month w = base + offset) /\
              Campaigns.end_month w =
                Z.min (Campaigns.start_month w + 12) (n_months cfg) /\
              Campaigns.end_month w <= n_months cfg)
      campaigns.
Proof.
  eexists. eexists. split; [cbv -[Z.min n_months]; reflexivity|].
  split; [reflexivity|]. split.
  - intros region channel Hr Hc. simpl in Hr, Hc.
    destruct Hr as [<-|[<-|[<-|[<-|[]]]]];
      destruct Hc as [<-|[<-|[<-|[]]]]; reflexivity.
  - repeat (apply Forall_cons;
            [ split; [cbn; auto 10|];
              split; [cbn; auto 10|];
              split; [do 2 eexists; repeat split; reflexivity|];
              split; [reflexivity | apply Z.le_min_r]
            | ]).
    apply Forall_nil.
Qed.

(** ** The panel exists for a valid configuration *)

Section Totality.

Context {np : Numpy}.








Lemma tile_length (l : list Q) (reps : Z) :
  List.length (tile l reps) = (Z.to_nat reps * List.length l)%nat.
Proof.
  unfold tile. induction (Z.to_nat reps) as [|k IH]; simpl; [reflexivity|].
  now rewrite length_app, IH.
Qed.

Lemma macro_factors_ok cfg rng :
  0 <= n_months cfg ->
  exists market seas rng',
    macro_factors cfg rng = Ok (market, seas, rng') /\
    List.length market = Z.to_nat (n_months cfg) /\
    List.length seas = Z.to_nat (n_months cfg).
Proof.
  intros Hn. unfold macro_factors, draw_size.
  destruct (Z.ltb_spec (n_months cfg) 0); [lia|]. simpl.
  pose proof (draw_n_length (gen_normal (4 # 1000) (3 # 100))
                (Z.to_nat (n_months cfg)) rng) as Hl.
  destruct (draw_n _ _ rng) as [market rng']. simpl in *.
  do 3 eexists. split; [reflexivity|]. split; [exact Hl|].
  rewrite length_map. unfold slice_to.
  destruct (Z.ltb_spec (n_months cfg) 0); [lia|].
  rewrite length_firstn, tile_length. apply Nat.min_l.
  change (List.length seasonality_template) with 12%nat.
  set (c := Qceiling (inject_Z (n_months cfg) / inject_Z 12)).
  assert (Hc : n_months cfg <= 12 * c).
  { pose proof (Qle_ceiling (inject_Z (n_months cfg) / inject_Z 12)) as Hq.
    fold c in Hq. unfold Qle, Qdiv, Qmult, Qinv, inject_Z in Hq.
    cbn [Qnum Qden Z.mul Pos.mul] in Hq. lia. }
  lia.
Qed.




End Totality.

(** ** The small run *)

Lemma demo_accounts_built :
  accounts (main (np := Reference.numpy) Demo.cli) = Some Demo.accounts.
Proof. vm_compute. reflexivity. Qed.

Lemma demo_panel_generated :
  generate_panel (np := Reference.numpy) Demo.accounts Demo.maps Demo.cfg =
  Ok Demo.panel.
Proof. vm_compute. reflexivity. Qed.

Lemma reference_beta_unit (g : Z) :
  (0 < fst (Reference.beta (inject_Z 5) (inject_Z 2) g)
   /\ fst (Reference.beta (inject_Z 5) (inject_Z 2) g) < 1)%Q.
Proof.
  unfold Reference.beta, Reference.random.
  set (z := Reference.advance g / 281474976710656).
  assert (Hz : 0 <= z < 65536).
  { subst z. unfold Reference.advance.
    pose proof (Z.mod_pos_bound
                  (g * 6364136223846793005 + 1442695040888963407)
                  18446744073709551616 ltac:(lia)) as Hb.
    split; [apply Z.div_pos; [exact (proj1 Hb) | reflexivity]
          | apply Z.div_lt_upper_bound; [reflexivity | exact (proj2 Hb)]]. }
  cbn [fst]. clearbody z.
  assert (Hq : (0 <= z # 65536 /\ z # 65536 < 1)%Q)
    by (unfold Qle, Qlt; cbn [Qnum Qden]; lia).
  generalize dependent (z # 65536). intros q Hq.
  change (inject_Z 5) with 5%Q. change (inject_Z 2) with 2%Q.
  split.
  - apply Qlt_shift_div_l; lra.
  - apply Qlt_shift_div_r; lra.
Qed.

Ltac demo_row m i r Hr :=
  destruct (row_at Demo.panel 2 m i) as [r|] eqn:Hr;
  [|vm_compute in Hr; discriminate].

Ltac demo_field Hr r :=
  let E := fresh in
  pose proof Hr as E; vm_compute in E; injection E as <-; reflexivity.

(** C1 does not extend to the month of the investment itself: in the
    record of month 8 of account 1 the account is eligible (it rolled over
    in month 6 and had not invested before) and [invested_status] is
    already true, because it invests in that very month. *)
Lemma invested_month_can_be_eligible :
  ~ (forall panel i m r,
       generate_panel (np := Reference.numpy) Demo.accounts Demo.maps Demo.cfg
         = Ok panel ->
       row_at panel (List.length Demo.accounts) m i = Some r ->
       Panel.invested_status r = 1 ->
       Panel.eligible_flag r = 0).
Proof.
  intros H.
  specialize (H Demo.panel 0%nat 8
                (nth 14 Demo.panel (fst (account_month (np := Reference.numpy)
                    Demo.cfg default_account default_mapping init_state
                    (month_in_at 0 0 0 [] [] 0))))
                demo_panel_generated).
  vm_compute in H. specialize (H eq_refl eq_refl). discriminate.
Qed.

Lemma eligible_after_investment_witness :
  exists r r',
    row_at Demo.panel 2 8 0 = Some r /\
    row_at Demo.panel 2 9 0 = Some r' /\
    Panel.invested_status r = 1 /\
    Panel.eligible_flag r' = 0.
Proof.
  demo_row 8 0%nat r Hr. demo_row 9 0%nat r' Hr'.
  assert (Hs : Panel.invested_status r = 1) by demo_field Hr r.
  exists r, r'. repeat split; try assumption.
  apply (proj2 (eligible_after_investment (np := Reference.numpy)
                  Demo.accounts Demo.maps Demo.cfg Demo.panel 0 8 r
                  demo_panel_generated Hr Hs) 9 r' ltac:(lia) Hr').
Defined.




Lemma event_time_since_first_exposure_witness :
  exists r,
    row_at Demo.panel 2 9 0 = Some r /\
    1 <= Panel.first_exposure_month r <= 9 /\
    Panel.event_time r = num (inject_Z (9 - Panel.first_exposure_month r)).
Proof.
  demo_row 9 0%nat r Hr. demo_row 8 0%nat r0 Hr0.
  assert (Hx : Panel.exposure_inapp r0 = 1) by demo_field Hr0 r0.
  exists r. split; [reflexivity|].
  apply (proj1 (event_time_since_first_exposure (np := Reference.numpy)
                  Demo.accounts Demo.maps Demo.cfg Demo.panel 0 9 r
                  demo_panel_generated Hr)).
  exists 8, r0. split; [lia|]. split; [exact Hr0|]. right. right. exact Hx.
Defined.

Lemma demo_accounts_from_generator :
  exists rng,
    build_accounts (np := Reference.numpy) (seed_state 42) Demo.cfg =
    Ok (Demo.accounts, rng).
Proof. vm_compute. eexists. reflexivity. Qed.

Lemma invest_amount_iff_invested_true_witness :
  exists r a,
    row_at Demo.panel 2 8 0 = Some r /\
    nth_error Demo.accounts 0 = Some a /\
    ((0 < Panel.invest_amount r)%Q <-> Panel.invested_true r = 1).
Proof.
  demo_row 8 0%nat r Hr.
  destruct (nth_error Demo.accounts 0) as [a|] eqn:Ha;
    [|vm_compute in Ha; discriminate].
  destruct demo_accounts_from_generator as [rng Hacc].
  exists r, a. repeat split; try assumption;
    apply (proj1 (invest_amount_iff_invested_true (np := Reference.numpy)
                    (seed_state 42) Demo.cfg rng
                    Demo.accounts Demo.maps Demo.cfg Demo.panel 0 8 r a
                    reference_beta_unit Hacc demo_panel_generated Hr Ha)).
Defined.

Lemma label_noise_spares_state_witness :
  exists r,
    row_at Demo.panel 2 8 0 = Some r /\
    Panel.invested_status r =
      Z.lor
        match row_at Demo.panel 2 (8 - 1) 0 with
        | Some r0 => Panel.invested_status r0
        | None => 0
        end
        (Panel.invested_true r).
Proof.
  demo_row 8 0%nat r Hr. exists r. split; [reflexivity|].
  apply (label_noise_spares_state (np := Reference.numpy)
           Demo.accounts Demo.maps Demo.cfg Demo.panel 0 8 r
           demo_panel_generated Hr).
Defined.

Lemma first_exposure_month_set_once_witness :
  exists r r',
    row_at Demo.panel 2 8 0 = Some r /\
    row_at Demo.panel 2 12 0 = Some r' /\
    0 <= Panel.first_exposure_month r /\
    Panel.first_exposure_month r' = Panel.first_exposure_month r.
Proof.
  demo_row 8 0%nat r Hr. demo_row 12 0%nat r' Hr'.
  assert (Hs : 0 <= Panel.first_exposure_month r).
  { pose proof Hr as E. vm_compute in E. injection E as <-. discriminate. }
  exists r, r'. repeat split; try assumption.
  apply (proj2 (proj2 (first_exposure_month_set_once (np := Reference.numpy)
                         Demo.accounts Demo.maps Demo.cfg Demo.panel 0 8 r
                         demo_panel_generated Hr))
           Hs 12 r' ltac:(lia) Hr').
Defined.

Lemma exposure_implies_eligible_witness :
  exists r,
    row_at Demo.panel 2 8 0 = Some r /\
    Panel.exposure_inapp r = 1 /\
    Panel.eligible_flag r = 1.
Proof.
  demo_row 8 0%nat r Hr.
  assert (Hx : Panel.exposure_inapp r = 1) by demo_field Hr r.
  exists r. repeat split; try assumption.
  apply (exposure_implies_eligible (np := Reference.numpy)
           Demo.accounts Demo.maps Demo.cfg Demo.panel 0 8 r
           demo_panel_generated Hr (or_intror (or_intror Hx))).
Defined.

Lemma post_equals_treated_witness :
  exists r,
    nth_error Demo.panel 14 = Some r /\
    Panel.post r = Panel.treated r.
Proof.
  destruct (nth_error Demo.panel 14) as [r|] eqn:Hr;
    [|vm_compute in Hr; discriminate].
  exists r. split; [reflexivity|].
  apply (post_equals_treated (np := Reference.numpy)
           Demo.accounts Demo.maps Demo.cfg Demo.panel r
           demo_panel_generated (nth_error_In _ _ Hr)).
Defined.

(** * Further properties *)

Section Environment.

Context {np : Numpy}.

Lemma map_result_nth {A B : Type} (f : A -> result B) (dA : A) (dB : B) :
  forall l ys i,
  map_result f l = Ok ys ->
  (i < List.length l)%nat ->
  f (nth i l dA) = Ok (nth i ys dB).
Proof.
  induction l as [|x l IH]; intros ys i H Hi; simpl in *; [lia|].
  apply bind_ok in H as (y & Hy & H).
  apply bind_ok in H as (ys' & Hys & H). injection H as <-.
  destruct i as [|i]; simpl; [exact Hy | apply IH; [exact Hys | lia]].
Qed.

Lemma map_result_length {A B : Type} (f : A -> result B) :
  forall l ys, map_result f l = Ok ys -> List.length ys = List.length l.
Proof.
  induction l as [|x l IH]; intros ys H; simpl in *.
  - now injection H as <-.
  - apply bind_ok in H as (y & Hy & H).
    apply bind_ok in H as (ys' & Hys & H). injection H as <-.
    simpl. now rewrite (IH _ Hys).
Qed.

Lemma vectorize_get_out (d : dict Z) (ks : list string)
    (o : list (option Z)) :
  vectorize_get d ks = Ok o -> o = map (dict_get d) ks.
Proof.
  unfold vectorize_get. destruct ks as [|k0 ks]; [discriminate|].
  destruct (dict_get d k0); [destruct (forallb _ _)|];
    intros H; try discriminate; now injection H.
Qed.

Lemma lookup_vector (campaigns_map : dict channel_maps) kind channel keys o :
  (c <- getitem campaigns_map kind ;; d <- getitem c channel ;;
   vectorize_get d keys) = Ok o ->
  forall i, (i < List.length keys)%nat ->
  nth i o None = campaign_lookup campaigns_map kind channel (nth i keys "").
Proof.
  intros H i Hi. unfold campaign_lookup.
  apply bind_ok in H as (c & -> & H).
  apply bind_ok in H as (d & -> & H).
  apply vectorize_get_out in H. subst o.
  rewrite (nth_indep _ None (dict_get d "")) by (now rewrite length_map).
  now rewrite map_nth.
Qed.

(** The mapping of an account holds the nine lookups for its region. *)
Lemma campaign_mapping_nth (campaigns_map : dict channel_maps) keys mappings i :
  campaign_mapping campaigns_map keys = Ok mappings ->
  (i < List.length keys)%nat ->
  let mp := nth i mappings default_mapping in
  let at_ kind channel :=
    campaign_lookup campaigns_map kind channel (nth i keys "") in
  email_start mp = at_ "start" "email" /\
  sms_start mp = at_ "start" "sms" /\
  inapp_start mp = at_ "start" "inapp" /\
  email_end mp = at_ "end" "email" /\
  sms_end mp = at_ "end" "sms" /\
  inapp_end mp = at_ "end" "inapp" /\
  email_wave mp = at_ "wave" "email" /\
  sms_wave mp = at_ "wave" "sms" /\
  inapp_wave mp = at_ "wave" "inapp".
Proof.
  intros H Hi. unfold campaign_mapping in H.
  apply bind_ok in H as (v1 & H1 & H). apply bind_ok in H as (v2 & H2 & H).
  apply bind_ok in H as (v3 & H3 & H). apply bind_ok in H as (v4 & H4 & H).
  apply bind_ok in H as (v5 & H5 & H). apply bind_ok in H as (v6 & H6 & H).
  apply bind_ok in H as (v7 & H7 & H). apply bind_ok in H as (v8 & H8 & H).
  apply bind_ok in H as (v9 & H9 & H). injection H as <-.
  cbv zeta. rewrite (nth_map_seq _ _ _ _ Hi).
  cbn [email_start sms_start inapp_start email_end sms_end inapp_end
       email_wave sms_wave inapp_wave].
  repeat split; eapply lookup_vector; eassumption.
Qed.

Lemma campaign_mapping_length campaigns_map keys mappings :
  campaign_mapping campaigns_map keys = Ok mappings ->
  List.length mappings = List.length keys.
Proof.
  intros H. unfold campaign_mapping in H.
  repeat (apply bind_ok in H as (? & _ & H)). injection H as <-.
  now rewrite length_map, length_seq.
Qed.

Lemma month_frame_env cfg accounts mappings market seas m st rng frame st' rng' :
  month_frame cfg accounts mappings market seas m st rng = Ok (frame, st', rng') ->
  exists acts mr se,
    map_result (windows m) mappings = Ok acts /\
    item market (m - 1) = Ok mr /\
    item seas (m - 1) = Ok se /\
    forall i, (i < List.length accounts)%nat ->
    let x := month_in_at m mr se acts
               (fst (month_draws (List.length accounts) rng)) i in
    let out := account_month cfg (nth i accounts default_account)
                 (nth i mappings default_mapping) (nth i st init_state) x in
    nth_error frame i = Some (fst out) /\ nth i st' init_state = snd out.
Proof.
  unfold month_frame. intros H.
  apply bind_ok in H as (acts & Hacts & H).
  destruct (month_draws (List.length accounts) rng) as [ds g] eqn:Hd.
  apply bind_ok in H as (mr & Hmr & H).
  apply bind_ok in H as (se & Hse & H). injection H as <- <- <-.
  exists acts, mr, se. repeat split; try assumption.
  - simpl. rewrite !map_map. now rewrite (nth_error_map_seq _ _ _ H).
  - simpl. rewrite !map_map. now rewrite (nth_map_seq _ _ _ _ H).
Qed.

Lemma month_loop_column_env cfg accounts mappings market seas i :
  (i < List.length accounts)%nat ->
  List.length mappings = List.length accounts ->
  forall months st rng frames,
  month_loop cfg accounts mappings market seas months st rng = Ok frames ->
  exists xs,
    map in_m xs = months /\
    map in_draws xs =
      map (fun ds => nth i ds default_draws)
        (loop_draws (List.length accounts) months rng) /\
    map (fun f => nth_error f i) frames =
      map Some (account_run cfg (nth i accounts default_account)
                  (nth i mappings default_mapping) (nth i st init_state) xs) /\
    Forall (month_env (nth i mappings default_mapping) market seas) xs.
Proof.
  intros Hi Hlen. induction months as [|m months IH];
    intros st rng frames H; simpl in H.
  - injection H as <-. exists []. repeat split. constructor.
  - apply bind_ok in H as ([[frame st'] rng'] & Hf & H).
    apply bind_ok in H as (rest & Hrest & H). injection H as <-.
    pose proof (month_frame_spec _ _ _ _ _ _ _ _ _ _ _ Hf) as [Hrng _].
    apply month_frame_env in Hf.
    destruct Hf as (acts & mr & se & Hacts & Hmr & Hse & Hrow).
    specialize (Hrow i Hi). simpl in Hrow. destruct Hrow as [Hfr Hs].
    subst rng'. apply IH in Hrest. destruct Hrest as (xs & Hm & Hd & Hc & He).
    exists (month_in_at m mr se acts
              (fst (month_draws (List.length accounts) rng)) i :: xs).
    simpl. destruct (month_draws (List.length accounts) rng) as [ds g]. simpl in *.
    rewrite Hm, Hd, Hc, Hfr, Hs.
    destruct (account_month _ _ _ _ _) as [r s']. repeat split.
    constructor; [|exact He].
    unfold month_env. cbn [in_m in_active in_market_return in_seasonality month_in_at].
    repeat split; try assumption.
    apply (map_result_nth (windows m) default_mapping (false, false, false)
             mappings acts i Hacts). lia.
Qed.

Lemma concat_length {A : Type} (n : nat) (frames : list (list A)) :
  Forall (fun f => List.length f = n) frames ->
  List.length (List.concat frames) = (List.length frames * n)%nat.
Proof.
  induction 1 as [|f frames Hf _ IH]; simpl; [reflexivity|].
  now rewrite length_app, IH, Hf.
Qed.

(** The whole of a successful [generate_panel], seen account by account. *)
Lemma panel_env accounts maps cfg panel :
  generate_panel accounts maps cfg = Ok panel ->
  exists D mappings rng0 market seas rng1,
    panel_draws accounts cfg = Ok D /\
    campaign_mapping maps (map Accounts.region accounts) = Ok mappings /\
    default_rng (seed cfg + 1) = Ok rng0 /\
    macro_factors cfg rng0 = Ok (market, seas, rng1) /\
    List.length panel =
      (Z.to_nat (n_months cfg) * List.length accounts)%nat /\
    forall i a, nth_error accounts i = Some a ->
    exists xs,
      trajectory cfg (List.length accounts) i a panel D
        (nth i mappings default_mapping) xs /\
      Forall (month_env (nth i mappings default_mapping) market seas) xs.
Proof.
  unfold generate_panel, panel_draws. intros H.
  apply bind_ok in H as (rng0 & Hrng & H). rewrite Hrng. simpl.
  apply bind_ok in H as (mappings & Hmap & H).
  apply bind_ok in H as ([[market seas] rng] & Hmac & H). rewrite Hmac. simpl.
  apply bind_ok in H as (frames & Hloop & H).
  assert (Hp : panel = List.concat frames)
    by (destruct frames; simpl in H; [discriminate | now injection H]).
  clear H. subst panel.
  destruct (month_loop_frames _ _ _ _ _ _ _ _ _ Hloop) as [Hall Hlen].
  exists (List.concat
            (loop_draws (List.length accounts) (arange 1 (n_months cfg + 1)) rng)),
    mappings, rng0, market, seas, rng.
  split; [reflexivity|]. split; [exact Hmap|]. split; [reflexivity|].
  split; [exact Hmac|]. split.
  { rewrite (concat_length _ _ Hall), Hlen, arange_length. f_equal. lia. }
  intros i acc Hacc.
  assert (Hi : (i < List.length accounts)%nat)
    by (apply nth_error_Some; congruence).
  assert (Hml : List.length mappings = List.length accounts)
    by (rewrite (campaign_mapping_length _ _ _ Hmap); apply length_map).
  destruct (month_loop_column_env cfg accounts mappings market seas i Hi Hml
              _ _ _ _ Hloop) as (xs & Hm & Hd & Hc & He).
  assert (Hnth : nth i accounts default_account = acc)
    by (now apply nth_error_nth).
  rewrite Hnth, nth_repeat in Hc.
  exists xs. split; [|exact He].
  assert (Hlx : List.length xs = Z.to_nat (n_months cfg)).
  { rewrite <- (length_map in_m), Hm, arange_length. f_equal. lia. }
  destruct (loop_draws_frames (List.length accounts)
              (arange 1 (n_months cfg + 1)) rng) as [HDall HDlen].
  split; [exact Hlx|]. split.
  - intros k x Hx.
    assert (Hk : (k < List.length xs)%nat) by (apply nth_error_Some; congruence).
    assert (Hmk : nth_error (map in_m xs) k = Some (in_m x))
      by (now rewrite nth_error_map, Hx).
    rewrite Hm, arange_nth_error in Hmk by lia.
    split; [congruence|].
    assert (Hcol : map (fun ds => option_map (fun d => d) (nth_error ds i))
                     (loop_draws (List.length accounts)
                        (arange 1 (n_months cfg + 1)) rng) =
                   map Some (map in_draws xs)).
    { rewrite Hd, map_map. apply map_ext_in. intros ds Hin.
      rewrite Forall_forall in HDall. specialize (HDall ds Hin).
      rewrite (nth_error_nth' ds default_draws) by lia. reflexivity. }
    pose proof (row_at_column (fun d => d) _ _ _ i HDall Hi Hcol
                  (1 + Z.of_nat k) ltac:(lia)) as E.
    replace (Z.to_nat (1 + Z.of_nat k - 1)) with k in E by lia.
    rewrite nth_error_map, Hx in E. simpl in E.
    destruct (row_at _ _ _ _); simpl in E; congruence.
  - assert (Hcol : map (fun f => option_map (fun r => r) (nth_error f i)) frames =
                   map Some (account_run cfg acc (nth i mappings default_mapping)
                               init_state xs)).
    { rewrite <- Hc. apply map_ext. intros f. now destruct (nth_error f i). }
    intros m r. split.
    + intros Hr.
      assert (Hm1 : 1 <= m).
      { unfold row_at in Hr. destruct (Z.leb_spec 1 m); [lia | discriminate]. }
      pose proof (row_at_column (fun r => r) _ _ _ i Hall Hi Hcol m Hm1) as E.
      rewrite Hr in E. simpl in E. rewrite account_run_nth in E.
      destruct (nth_error xs (Z.to_nat (m - 1))) as [x|] eqn:Hx; [|discriminate].
      exists (Z.to_nat (m - 1)), x. injection E as E.
      repeat split; [lia | exact Hx | exact E].
    + intros (k & x & -> & Hx & ->).
      pose proof (row_at_column (fun r => r) _ _ _ i Hall Hi Hcol
                    (1 + Z.of_nat k) ltac:(lia)) as E.
      replace (Z.to_nat (1 + Z.of_nat k - 1)) with k in E by lia.
      rewrite account_run_nth, Hx in E.
      destruct (row_at _ _ _ _); simpl in E; congruence.
Qed.

End Environment.

(** ** More on one month of one account *)

Section StepMore.

Context {np : Numpy}.
Variables (cfg : Config) (a : Accounts.row) (mp : mapping).
Variables (s : state) (x : month_in).

Local Abbreviation r := (fst (account_month cfg a mp s x)).
Local Abbreviation s' := (snd (account_month cfg a mp s x)).

Ltac step_in := unfold account_month;
  destruct (in_active x) as [[ea sa] ia]; cbn.

Lemma Qltb_false_below (u p : Q) : (p <= u)%Q -> Qltb u p = false.
Proof.
  intros H. unfold Qltb. apply Qle_bool_iff in H. now rewrite H.
Qed.

Lemma step_macro :
  Panel.market_return r = in_market_return x /\
  Panel.seasonality_index r = in_seasonality x.
Proof. step_in. split; reflexivity. Qed.

Lemma step_msr :
  Panel.months_since_rollover r = in_m x - Accounts.rollover_month a /\
  Panel.active_flag r = Z.b2z (Panel.months_since_rollover r >=? 0).
Proof. step_in. split; reflexivity. Qed.

Lemma step_eligible_iff :
  Panel.eligible_flag r = 1 <->
  1 <= in_m x - Accounts.rollover_month a <= 6 /\
  invested_status s = false /\ account_closed s = false.
Proof.
  step_in.
  destruct (Z.geb_spec (in_m x - Accounts.rollover_month a) 0);
    destruct (Z.geb_spec (in_m x - Accounts.rollover_month a) 1);
    destruct (Z.leb_spec (in_m x - Accounts.rollover_month a) 6);
    destruct (invested_status s), (account_closed s); cbn;
    split; intros Hyp; try discriminate; try lia;
    try (destruct Hyp as (_ & Hy1 & Hy2); discriminate);
    repeat split; auto; lia.
Qed.

Lemma step_closed_keeps :
  account_closed s = true -> account_closed s' = true.
Proof. step_in. now intros ->. Qed.

Lemma step_nudges :
  (Panel.nudge_email r = 1 ->
   Panel.eligible_flag r = 1 /\ Accounts.contactable_email a <> 0
   /\ fst (fst (in_active x)) = true) /\
  (Panel.nudge_sms r = 1 ->
   Panel.eligible_flag r = 1 /\ Accounts.contactable_sms a <> 0
   /\ snd (fst (in_active x)) = true) /\
  (Panel.nudge_inapp r = 1 ->
   Panel.eligible_flag r = 1 /\ snd (in_active x) = true).
Proof.
  step_in.
  match goal with
  | |- context [Z.b2z (?e && negb (invested_status s) && negb (account_closed s))] =>
      destruct (e && negb (invested_status s) && negb (account_closed s))
  end; cbn; [|repeat split; discriminate].
  repeat split; try reflexivity;
    match goal with
    | H : Z.b2z _ = 1 |- _ <> 0 => intros E; rewrite E in H; discriminate
    | H : Z.b2z (negb ?c && ?w && _) = 1 |- ?w = true =>
        destruct (negb c), w; cbn in H; congruence
    | H : Z.b2z (?w && _) = 1 |- ?w = true => destruct w; cbn in H; congruence
    end.
Qed.

Lemma step_waves :
  Panel.email_wave_id r = email_wave mp /\
  Panel.sms_wave_id r = sms_wave mp /\
  Panel.inapp_wave_id r = inapp_wave mp.
Proof. step_in. repeat split. Qed.

Lemma step_observed :
  Panel.engagement_obs r =
    (if Panel.missing_engagement r =? 1 then nan
     else num (Accounts.digital_engagement_score a)) /\
  Panel.market_return_obs r =
    (if Panel.missing_market_return r =? 1 then nan
     else num (Panel.market_return r)).
Proof.
  step_in. split; match goal with |- context [Z.b2z ?b] => destruct b end;
    reflexivity.
Qed.

Lemma step_intensity :
  Panel.treatment_intensity r =
    Panel.exposure_email r + Panel.exposure_sms r + Panel.exposure_inapp r /\
  0 <= Panel.treatment_intensity r <= 3 /\
  Panel.treatment_any r = Z.b2z (Panel.treatment_intensity r >? 0).
Proof.
  step_in. split; [reflexivity|]. split; [|reflexivity].
  repeat match goal with
         | |- context [Z.b2z (?b || ?c)] => destruct (b || c)
         end; cbn; lia.
Qed.

Lemma step_no_investment :
  (0 <= u_invest (in_draws x))%Q ->
  Panel.active_flag r = 0 \/ invested_status s = true \/ account_closed s = true ->
  Panel.invested_true r = 0.
Proof.
  intros Hu Hc. revert Hc. step_in. intros Hc.
  rewrite Qltb_false_below; [reflexivity|].
  match goal with
  | |- (?l * b2q ?act * _ * _ <= _)%Q =>
      generalize l; intros l0;
      assert (E : act = false \/ invested_status s = true
                  \/ account_closed s = true)
        by (destruct act; [destruct Hc as [Hc|Hc]; [discriminate | auto] | auto]);
      destruct act, (invested_status s), (account_closed s)
  end;
    try (destruct E as [E|[E|E]]; discriminate);
    unfold b2q; cbn [Z.b2z negb inject_Z];
    (apply Qle_trans with 0%Q; [|exact Hu]);
    apply Qle_lteq; right; ring.
Qed.

Lemma step_no_noise :
  (label_noise_rate cfg <= u_noise (in_draws x))%Q ->
  Panel.invested_flag r = Panel.invested_true r.
Proof.
  intros Hu. rewrite step_invested_flag, (Qltb_false_below _ _ Hu). reflexivity.
Qed.

Lemma step_no_contamination :
  (contam_rate cfg <= u_email_contam (in_draws x))%Q ->
  (contam_rate cfg <= u_sms_contam (in_draws x))%Q ->
  (contam_rate cfg <= u_inapp_contam (in_draws x))%Q ->
  (Panel.exposure_email r = 1 -> Panel.nudge_email r = 1) /\
  (Panel.exposure_sms r = 1 -> Panel.nudge_sms r = 1) /\
  (Panel.exposure_inapp r = 1 -> Panel.nudge_inapp r = 1).
Proof.
  intros H1 H2 H3. step_in.
  rewrite (Qltb_false_below _ _ H1), (Qltb_false_below _ _ H2),
    (Qltb_false_below _ _ H3), !andb_false_r, !orb_false_r.
  repeat split; match goal with
                | |- Z.b2z (?b && _) = 1 -> _ => destruct b
                end; cbn; congruence.
Qed.

Lemma step_no_closure :
  (close_rate cfg <= u_close (in_draws x))%Q ->
  account_closed s' = account_closed s.
Proof.
  intros Hu. step_in. rewrite (Qltb_false_below _ _ Hu), andb_false_r.
  apply orb_false_r.
Qed.

Lemma step_never_missing :
  (missing_engagement_rate cfg <= u_missing_engagement (in_draws x))%Q ->
  (missing_market_rate cfg <= u_missing_market (in_draws x))%Q ->
  Panel.missing_engagement r = 0 /\ Panel.missing_market_return r = 0.
Proof.
  intros H1 H2. step_in.
  now rewrite (Qltb_false_below _ _ H1), (Qltb_false_below _ _ H2).
Qed.

End StepMore.

(** ** Samples and carried state *)

Section RunMore.

Context {np : Numpy}.

Lemma month_draws_uniform (P : Q -> Prop) (n : nat) (rng : G) :
  (forall g, P (fst (gen_random g))) ->
  Forall (fun d => Forall P (uniform_samples d)) (fst (month_draws n rng)).
Proof.
  intros HP. apply Forall_forall. intros d Hd.
  destruct (In_nth _ _ default_draws Hd) as (i & Hi & <-).
  rewrite month_draws_length in Hi. clear Hd.
  unfold month_draws.
  repeat match goal with
         | |- context [draw_n gen_random ?k ?g] =>
             let Hall := fresh "Hall" in
             let Hlen := fresh "Hlen" in
             pose proof (draw_n_Forall P gen_random HP k g) as Hall;
             pose proof (draw_n_length gen_random k g) as Hlen;
             destruct (draw_n gen_random k g)
         | |- context [draw_n ?f ?k ?g] => destruct (draw_n f k g)
         end.
  cbn [fst] in *. rewrite nth_map_seq by exact Hi.
  unfold uniform_samples; cbn.
  repeat (apply Forall_cons;
          [match goal with
           | H : Forall P ?l |- P (nth i ?l _) =>
               rewrite Forall_forall in H; apply H, nth_In; lia
           end|]).
  apply Forall_nil.
Qed.

Lemma panel_draws_uniform (P : Q -> Prop) accounts cfg D :
  (forall g, P (fst (gen_random g))) ->
  panel_draws accounts cfg = Ok D ->
  Forall (fun d => Forall P (uniform_samples d)) D.
Proof.
  intros HP H. unfold panel_draws in H.
  apply bind_ok in H as (rng0 & _ & H).
  apply bind_ok in H as ([[market seas] rng] & _ & H).
  injection H as <-.
  generalize (arange 1 (n_months cfg + 1)). intros months. revert rng.
  induction months as [|m months IH]; intros rng; simpl; [constructor|].
  pose proof (month_draws_uniform P (List.length accounts) rng HP) as Hd.
  destruct (month_draws (List.length accounts) rng) as [ds g]. simpl in *.
  apply Forall_app. split; [exact Hd | apply IH].
Qed.

Lemma row_at_In {A : Type} (table : list A) (n : nat) (m : Z) (i : nat) (d : A) :
  row_at table n m i = Some d -> In d table.
Proof.
  unfold row_at. destruct ((1 <=? m) && (i <? n)%nat); [|discriminate].
  apply nth_error_In.
Qed.

Variables (cfg : Config) (a : Accounts.row) (mp : mapping).
Variable xs : list month_in.

Local Abbreviation S_ k := (state_after cfg a mp init_state xs k).
Local Abbreviation row k x := (fst (account_month cfg a mp (S_ k) x)).

Lemma closed_step k x : nth_error xs k = Some x ->
  account_closed (S_ k) = true -> account_closed (S_ (S k)) = true.
Proof.
  intros H. rewrite (state_after_S cfg a mp xs init_state k x H).
  apply step_closed_keeps.
Qed.

Lemma closed_mono k k' x' :
  nth_error xs k' = Some x' -> (k <= k')%nat ->
  account_closed (S_ k) = true -> account_closed (S_ k') = true.
Proof.
  intros Hx' Hk Hs. revert x' Hx'.
  induction Hk as [|k' Hk IH]; intros x' Hx'; [exact Hs|].
  destruct (nth_error_below xs k' (S k') x' Hx' ltac:(lia)) as [y Hy].
  apply (closed_step k' y Hy), (IH y Hy).
Qed.

(** The carried status is true exactly when some earlier month had a true
    investment. *)
Lemma status_origin k :
  (k <= List.length xs)%nat ->
  (invested_status (S_ k) = true <->
   exists j x, (j < k)%nat /\ nth_error xs j = Some x /\
               Panel.invested_true (row j x) = 1).
Proof.
  induction k as [|k IH]; intros Hk.
  - rewrite state_after_0. simpl. split; [discriminate|].
    intros (j & _ & Hj & _). lia.
  - destruct (nth_error xs k) as [x|] eqn:Hx;
      [|apply nth_error_None in Hx; lia].
    rewrite (status_step cfg a mp xs k x Hx). split.
    + intros H. apply orb_true_iff in H. destruct H as [H|H].
      * apply IH in H; [|lia]. destruct H as (j & y & Hj & Hy & Ht).
        exists j, y. repeat split; auto.
      * exists k, x. repeat split; auto. now apply Z.eqb_eq.
    + intros (j & y & Hj & Hy & Ht). apply orb_true_iff.
      destruct (Nat.eq_dec j k) as [->|Hne].
      * right. assert (y = x) by congruence. subst y. now apply Z.eqb_eq.
      * left. apply IH; [lia|]. exists j, y. repeat split; auto. lia.
Qed.

End RunMore.

(** ** More on the panel *)

Section PanelMore.

Context {np : Numpy}.

Local Abbreviation S_ cfg a mp xs k := (state_after cfg a mp init_state xs k).

Lemma trajectory_previous cfg n i a panel D mp xs :
  trajectory cfg n i a panel D mp xs ->
  forall k x, nth_error xs k = Some x ->
  previous_invested_status panel n (1 + Z.of_nat k) i =
    Z.b2z (invested_status (S_ cfg a mp xs k)) /\
  previous_account_closed panel n (1 + Z.of_nat k) i =
    Z.b2z (account_closed (S_ cfg a mp xs k)).
Proof.
  intros (_ & _ & Hrows) k x Hx.
  unfold previous_invested_status, previous_account_closed.
  destruct (row_at panel n (1 + Z.of_nat k - 1) i) as [r0|] eqn:E.
  - apply Hrows in E as (k0 & x0 & Hk & Hx0 & ->).
    assert (k = S k0) by lia. subst k.
    split; [apply (row_status cfg a mp xs k0 x0 Hx0)
           | apply (row_closed cfg a mp xs k0 x0 Hx0)].
  - destruct k as [|k]; [now rewrite state_after_0|].
    destruct (nth_error_below xs k (S k) x Hx ltac:(lia)) as [y Hy].
    assert (E' : row_at panel n (1 + Z.of_nat k) i =
                 Some (fst (account_month cfg a mp (S_ cfg a mp xs k) y)))
      by (apply Hrows; eauto).
    replace (1 + Z.of_nat (S k) - 1) with (1 + Z.of_nat k) in E by lia.
    congruence.
Qed.

(** The panel has one record for every month from 1 to [n_months] and every
    account, month by month in account order, and no other; the record of
    month [m] and account [a] carries [m], the id of [a] and the months
    since its rollover, and is active exactly from the rollover month on. *)
Theorem panel_shape accounts maps cfg panel :
  generate_panel accounts maps cfg = Ok panel ->
  List.length panel = (Z.to_nat (n_months cfg) * List.length accounts)%nat /\
  (forall m i,
     1 <= m <= n_months cfg -> (i < List.length accounts)%nat ->
     exists r, row_at panel (List.length accounts) m i = Some r) /\
  (forall m i r a,
     row_at panel (List.length accounts) m i = Some r ->
     nth_error accounts i = Some a ->
     1 <= m <= n_months cfg /\
     Panel.calendar_month r = m /\
     Panel.account_id r = Accounts.account_id a /\
     Panel.months_since_rollover r = m - Accounts.rollover_month a /\
     (Panel.active_flag r = 1 <-> Accounts.rollover_month a <= m)).
Proof.
  intros H.
  destruct (panel_env _ _ _ _ H)
    as (D & mappings & rng0 & market & seas & rng1 & _ & _ & _ & _ & Hlen & Htraj).
  split; [exact Hlen|]. split.
  - intros m i Hm Hi.
    destruct (nth_error accounts i) as [a|] eqn:Ha;
      [|apply nth_error_None in Ha; lia].
    destruct (Htraj i a Ha) as (xs & (Hlx & _ & Hrows) & _).
    destruct (nth_error xs (Z.to_nat (m - 1))) as [x|] eqn:Hx;
      [|apply nth_error_None in Hx; lia].
    eexists. apply Hrows. exists (Z.to_nat (m - 1)), x.
    repeat split; [lia | exact Hx].
  - intros m i r a Hr Ha.
    destruct (Htraj i a Ha) as (xs & Ht & _).
    pose proof (trajectory_months _ _ _ _ _ _ _ _ Ht) as Hm.
    destruct Ht as (Hlx & _ & Hrows).
    apply Hrows in Hr as (k & x & -> & Hx & ->).
    pose proof (nth_error_length _ _ _ Hx) as Hk.
    destruct (step_msr cfg a (nth i mappings default_mapping)
                (S_ cfg a (nth i mappings default_mapping) xs k) x) as [Emsr Eact].
    rewrite step_calendar_month, step_account_id, Eact, Emsr, (Hm k x Hx).
    repeat split; try lia.
    + destruct (Z.geb_spec (1 + Z.of_nat k - Accounts.rollover_month a) 0);
        [lia | discriminate].
    + intros Hle.
      destruct (Z.geb_spec (1 + Z.of_nat k - Accounts.rollover_month a) 0);
        [reflexivity | lia].
Qed.

(** [invested_status] is true in a record exactly when [invested_true] is
    true in the record of that or an earlier month of the account; so it
    never goes back to false. *)
Theorem invested_status_accumulates accounts maps cfg panel i m r :
  generate_panel accounts maps cfg = Ok panel ->
  row_at panel (List.length accounts) m i = Some r ->
  (Panel.invested_status r = 1 <->
   exists m0 r0,
     m0 <= m /\ row_at panel (List.length accounts) m0 i = Some r0 /\
     Panel.invested_true r0 = 1) /\
  (Panel.invested_status r = 1 ->
   forall m' r',
     m <= m' -> row_at panel (List.length accounts) m' i = Some r' ->
     Panel.invested_status r' = 1).
Proof.
  intros H Hr.
  destruct (panel_row _ _ _ _ H) as (D & _ & Hrow).
  destruct (Hrow i m r Hr) as (a & mp & xs & _ & (_ & _ & Hrows)).
  apply Hrows in Hr as (k & x & -> & Hx & ->).
  pose proof (nth_error_length _ _ _ Hx) as Hk.
  rewrite (row_status cfg a mp xs k x Hx).
  assert (Hb : forall b : bool, Z.b2z b = 1 <-> b = true)
    by (intros [|]; simpl; split; congruence).
  rewrite Hb. split.
  - rewrite (status_origin cfg a mp xs (S k) Hk). split.
    + intros (j & y & Hj & Hy & Ht).
      exists (1 + Z.of_nat j), (fst (account_month cfg a mp (S_ cfg a mp xs j) y)).
      split; [lia|]. split; [apply Hrows; eauto | exact Ht].
    + intros (m0 & r0 & Hle & Hr0 & Ht).
      apply Hrows in Hr0 as (j & y & -> & Hy & ->).
      exists j, y. split; [lia|]. split; assumption.
  - intros Hs m' r' Hle Hr'.
    apply Hrows in Hr' as (k' & x' & -> & Hx' & ->).
    rewrite (row_status cfg a mp xs k' x' Hx'). apply Hb.
    destruct (nth_error xs (S k')) as [y|] eqn:Hy.
    + apply (status_mono cfg a mp xs (S k) (S k') y Hy ltac:(lia) Hs).
    + destruct (Nat.eq_dec k k') as [->|Hne]; [exact Hs|].
      rewrite (status_step cfg a mp xs k' x' Hx').
      rewrite (status_mono cfg a mp xs (S k) k' x' Hx' ltac:(lia) Hs).
      reflexivity.
Qed.

(** Once [account_closed] is true in a record of an account it is true in
    every later record of that account. *)
Theorem account_closed_monotone accounts maps cfg panel i m r m' r' :
  generate_panel accounts maps cfg = Ok panel ->
  row_at panel (List.length accounts) m i = Some r ->
  row_at panel (List.length accounts) m' i = Some r' ->
  m <= m' ->
  Panel.account_closed r = 1 ->
  Panel.account_closed r' = 1.
Proof.
  intros H Hr Hr' Hle Hc.
  destruct (panel_row _ _ _ _ H) as (D & _ & Hrow).
  destruct (Hrow i m r Hr) as (a & mp & xs & _ & (_ & _ & Hrows)).
  apply Hrows in Hr as (k & x & -> & Hx & ->).
  apply Hrows in Hr' as (k' & x' & -> & Hx' & ->).
  rewrite (row_closed cfg a mp xs k x Hx) in Hc.
  rewrite (row_closed cfg a mp xs k' x' Hx').
  assert (Hs : account_closed (S_ cfg a mp xs (S k)) = true)
    by (destruct (account_closed _); [reflexivity | discriminate]).
  destruct (Nat.eq_dec k k') as [->|Hne]; [now rewrite Hs|].
  pose proof (closed_mono cfg a mp xs (S k) k' x' Hx' ltac:(lia) Hs) as Hk'.
  now rewrite (closed_step cfg a mp xs k' x' Hx' Hk').
Qed.

(** An account is eligible in a month exactly when the month is one of the
    six after its rollover month and the record of the month before shows
    it neither invested nor closed. *)
Theorem eligible_iff accounts maps cfg panel i m r a :
  generate_panel accounts maps cfg = Ok panel ->
  row_at panel (List.length accounts) m i = Some r ->
  nth_error accounts i = Some a ->
  (Panel.eligible_flag r = 1 <->
   Accounts.rollover_month a + 1 <= m <= Accounts.rollover_month a + 6 /\
   previous_invested_status panel (List.length accounts) m i = 0 /\
   previous_account_closed panel (List.length accounts) m i = 0).
Proof.
  intros H Hr Ha.
  destruct (panel_row _ _ _ _ H) as (D & _ & Hrow).
  destruct (Hrow i m r Hr) as (a' & mp & xs & Ha' & Ht).
  assert (a' = a) by congruence. subst a'.
  pose proof (trajectory_months _ _ _ _ _ _ _ _ Ht) as Hm.
  pose proof (trajectory_previous _ _ _ _ _ _ _ _ Ht) as Hprev.
  destruct Ht as (_ & _ & Hrows).
  apply Hrows in Hr as (k & x & -> & Hx & ->).
  destruct (Hprev k x Hx) as [-> ->].
  rewrite step_eligible_iff, (Hm k x Hx).
  destruct (invested_status (S_ cfg a mp xs k)),
    (account_closed (S_ cfg a mp xs k)); simpl;
    split; intros (H1 & H2 & H3); try discriminate;
    repeat split; auto; lia.
Qed.

End PanelMore.

(** ** Nudges, waves and the schedule *)

Section Nudges.

Context {np : Numpy}.

Lemma windows_inv (m : Z) (mp : mapping) (e s i : bool) :
  windows m mp = Ok (e, s, i) ->
  (exists s0 e0, email_start mp = Some s0 /\ email_end mp = Some e0
                 /\ e = (m >=? s0) && (m <=? e0)) /\
  (exists s0 e0, sms_start mp = Some s0 /\ sms_end mp = Some e0
                 /\ s = (m >=? s0) && (m <=? e0)) /\
  (exists s0 e0, inapp_start mp = Some s0 /\ inapp_end mp = Some e0
                 /\ i = (m >=? s0) && (m <=? e0)).
Proof.
  unfold windows, window. intros H.
  destruct (email_start mp), (email_end mp); try discriminate.
  destruct (sms_start mp), (sms_end mp); try discriminate.
  destruct (inapp_start mp), (inapp_end mp); try discriminate.
  simpl in H. injection H as <- <- <-. repeat split; eauto.
Qed.

Lemma window_bounds (m s e : Z) :
  (m >=? s) && (m <=? e) = true -> s <= m <= e.
Proof.
  intros H. apply andb_true_iff in H. destruct H as [H1 H2].
  apply Z.geb_le in H1. apply Z.leb_le in H2. lia.
Qed.

Lemma region_column accounts i (a : Accounts.row) :
  nth_error accounts i = Some a ->
  (i < List.length (map Accounts.region accounts))%nat /\
  nth i (map Accounts.region accounts) "" = Accounts.region a.
Proof.
  intros Ha.
  assert (Hi : (i < List.length (map Accounts.region accounts))%nat)
    by (rewrite length_map; apply nth_error_Some; congruence).
  split; [exact Hi|].
  rewrite (nth_indep _ "" (Accounts.region default_account)) by exact Hi.
  rewrite map_nth. f_equal. now apply nth_error_nth.
Qed.

(** The windows an account saw in a month are those of the campaign maps
    for its region. *)
Lemma active_in_window accounts maps cfg panel i a :
  generate_panel accounts maps cfg = Ok panel ->
  nth_error accounts i = Some a ->
  exists mp xs D,
    trajectory cfg (List.length accounts) i a panel D mp xs /\
    email_wave mp = campaign_lookup maps "wave" "email" (Accounts.region a) /\
    sms_wave mp = campaign_lookup maps "wave" "sms" (Accounts.region a) /\
    inapp_wave mp = campaign_lookup maps "wave" "inapp" (Accounts.region a) /\
    forall k x, nth_error xs k = Some x ->
      (fst (fst (in_active x)) = true ->
       in_window maps "email" (Accounts.region a) (1 + Z.of_nat k)) /\
      (snd (fst (in_active x)) = true ->
       in_window maps "sms" (Accounts.region a) (1 + Z.of_nat k)) /\
      (snd (in_active x) = true ->
       in_window maps "inapp" (Accounts.region a) (1 + Z.of_nat k)).
Proof.
  intros H Ha.
  destruct (panel_env _ _ _ _ H)
    as (D & mappings & rng0 & market & seas & rng1 & _ & Hmap & _ & _ & _ & Htraj).
  destruct (Htraj i a Ha) as (xs & Ht & He).
  pose proof (trajectory_months _ _ _ _ _ _ _ _ Ht) as Hm.
  destruct (region_column accounts i a Ha) as [Hi Hreg].
  destruct (campaign_mapping_nth maps _ mappings i Hmap Hi)
    as (E1 & E2 & E3 & E4 & E5 & E6 & E7 & E8 & E9).
  rewrite Hreg in *.
  exists (nth i mappings default_mapping), xs, D.
  split; [exact Ht|]. do 3 (split; [assumption|]).
  intros k x Hx.
  rewrite Forall_forall in He. specialize (He x (nth_error_In _ _ Hx)).
  destruct He as (Hw & _ & _). rewrite (Hm k x Hx) in Hw.
  destruct (in_active x) as [[ea sa] ia].
  apply windows_inv in Hw.
  destruct Hw as ((s1 & e1 & S1 & F1 & W1) & (s2 & e2 & S2 & F2 & W2)
                  & (s3 & e3 & S3 & F3 & W3)).
  cbn [fst snd]. repeat split; intros Hact; unfold in_window.
  - exists s1, e1. rewrite <- E1, <- E4. repeat split; try assumption;
      apply (window_bounds _ s1 e1); congruence.
  - exists s2, e2. rewrite <- E2, <- E5. repeat split; try assumption;
      apply (window_bounds _ s2 e2); congruence.
  - exists s3, e3. rewrite <- E3, <- E6. repeat split; try assumption;
      apply (window_bounds _ s3 e3); congruence.
Qed.

(** A nudge is assigned only to an eligible account, on a channel it can
    be contacted on (in-app needs no contact flag), in a month inside the
    window that the campaign maps give the channel in the account's
    region. *)
Theorem nudge_within_window accounts maps cfg panel i m r a :
  generate_panel accounts maps cfg = Ok panel ->
  row_at panel (List.length accounts) m i = Some r ->
  nth_error accounts i = Some a ->
  (Panel.nudge_email r = 1 ->
   Panel.eligible_flag r = 1 /\ Accounts.contactable_email a <> 0
   /\ in_window maps "email" (Accounts.region a) m) /\
  (Panel.nudge_sms r = 1 ->
   Panel.eligible_flag r = 1 /\ Accounts.contactable_sms a <> 0
   /\ in_window maps "sms" (Accounts.region a) m) /\
  (Panel.nudge_inapp r = 1 ->
   Panel.eligible_flag r = 1 /\ in_window maps "inapp" (Accounts.region a) m).
Proof.
  intros H Hr Ha.
  destruct (active_in_window accounts maps cfg panel i a H Ha)
    as (mp & xs & D & (_ & _ & Hrows) & _ & _ & _ & Hwin).
  destruct (proj1 (Hrows m r) Hr) as (k & x & -> & Hx & ->).
  destruct (Hwin k x Hx) as (W1 & W2 & W3).
  destruct (step_nudges cfg a mp (state_after cfg a mp init_state xs k) x)
    as (N1 & N2 & N3).
  split; [|split].
  - intros Hn. destruct (N1 Hn) as (He & Hc & Hact). auto.
  - intros Hn. destruct (N2 Hn) as (He & Hc & Hact). auto.
  - intros Hn. destruct (N3 Hn) as (He & Hact). auto.
Qed.

End Nudges.

Lemma lookup_of_wave (cfg : Config) campaigns maps w :
  build_campaigns cfg = Ok (campaigns, maps) ->
  In w campaigns ->
  campaign_lookup maps "start" (Campaigns.channel w) (Campaigns.region w)
    = Some (Campaigns.start_month w) /\
  campaign_lookup maps "end" (Campaigns.channel w) (Campaigns.region w)
    = Some (Campaigns.end_month w) /\
  campaign_lookup maps "wave" (Campaigns.channel w) (Campaigns.region w)
    = Some (Campaigns.nudge_wave_id w).
Proof.
  intros H Hw. cbv -[Z.min n_months] in H. injection H as <- <-.
  simpl in Hw.
  repeat (destruct Hw as [<-|Hw]; [repeat split; reflexivity|]).
  contradiction.
Qed.

Lemma dict_get_In {V : Type} (d : dict V) (k : string) (v : V) :
  dict_get d k = Some v -> In (k, v) d.
Proof.
  induction d as [|[k' v'] d IH]; simpl; [discriminate|].
  destruct (String.eqb_spec k' k) as [->|Hne].
  - intros E. injection E as ->. now left.
  - intros E. right. now apply IH.
Qed.

Lemma campaign_lookup_In (campaigns_map : dict channel_maps)
    kind channel region v :
  campaign_lookup campaigns_map kind channel region = Some v ->
  exists c d,
    In (kind, c) campaigns_map /\ In (channel, d) c /\ In (region, v) d.
Proof.
  unfold campaign_lookup, getitem. intros H.
  destruct (dict_get campaigns_map kind) as [c|] eqn:Ec; [|discriminate].
  destruct (dict_get c channel) as [d|] eqn:Ed; [|discriminate].
  exists c, d. repeat split; now apply dict_get_In.
Qed.

Lemma wave_of_lookup (cfg : Config) campaigns maps kind channel region v :
  build_campaigns cfg = Ok (campaigns, maps) ->
  campaign_lookup maps kind channel region = Some v ->
  exists w, In w campaigns /\ Campaigns.channel w = channel
            /\ Campaigns.region w = region.
Proof.
  intros H Hl.
  destruct (campaign_lookup_In maps kind channel region v Hl)
    as (c & d & Hc & Hd & Hv).
  cbv -[Z.min n_months] in H. injection H as <- <-.
  simpl in Hc.
  repeat (destruct Hc as [Hc|Hc];
          [injection Hc as <- <-; simpl in Hd;
           repeat (destruct Hd as [Hd|Hd];
                   [injection Hd as <- <-; simpl in Hv;
                    repeat (destruct Hv as [Hv|Hv];
                            [injection Hv as <- <-;
                             apply Exists_exists;
                             repeat first
                               [ apply Exists_cons_hd; split; reflexivity
                               | apply Exists_cons_tl ]|]);
                    contradiction|]);
           contradiction|]).
  contradiction.
Qed.

(** The lookup maps of the scheduler and its table say the same: a map
    gives a start month, end month or wave id for a channel and region
    exactly when the table has a wave of that channel and region with
    that value. *)
Theorem schedule_lookup (cfg : Config) campaigns maps channel region v :
  build_campaigns cfg = Ok (campaigns, maps) ->
  (campaign_lookup maps "start" channel region = Some v <->
   exists w, In w campaigns /\ Campaigns.channel w = channel
             /\ Campaigns.region w = region /\ Campaigns.start_month w = v) /\
  (campaign_lookup maps "end" channel region = Some v <->
   exists w, In w campaigns /\ Campaigns.channel w = channel
             /\ Campaigns.region w = region /\ Campaigns.end_month w = v) /\
  (campaign_lookup maps "wave" channel region = Some v <->
   exists w, In w campaigns /\ Campaigns.channel w = channel
             /\ Campaigns.region w = region /\ Campaigns.nudge_wave_id w = v).
Proof.
  intros H. repeat split.
  all: try (intros Hl;
            destruct (wave_of_lookup cfg campaigns maps _ _ _ _ H Hl)
              as (w & Hw & <- & <-);
            destruct (lookup_of_wave cfg campaigns maps w H Hw) as (L1 & L2 & L3);
            exists w; repeat split; try assumption; congruence).
  all: intros (w & Hw & <- & <- & <-);
    destruct (lookup_of_wave cfg campaigns maps w H Hw) as (L1 & L2 & L3);
    assumption.
Qed.

(** Wave ids count from 1 in the order of the table, which goes through
    the regions in turn and, within a region, through email, sms and
    in-app; sms waves have intensity 2, the others 1. *)
Theorem schedule_order (cfg : Config) campaigns maps :
  build_campaigns cfg = Ok (campaigns, maps) ->
  map (fun w => (Campaigns.nudge_wave_id w,
                 (Campaigns.region w, Campaigns.channel w))) campaigns
  = combine (arange 1 13) (list_prod regions channels) /\
  Forall (fun w => Campaigns.intensity w =
                   if String.eqb (Campaigns.channel w) "sms" then 2 else 1)
    campaigns.
Proof.
  intros H. cbv -[Z.min n_months] in H. injection H as <- _.
  split; [reflexivity|]. repeat constructor.
Qed.

(** A wave has a month in its window exactly when it starts within the
    horizon; nothing stops the scheduler from listing a wave that starts
    later, whose end month [n_months] is then before its start.  A wave
    that starts at least twelve months before the horizon runs for
    thirteen months. *)
Theorem schedule_window (cfg : Config) campaigns maps w :
  build_campaigns cfg = Ok (campaigns, maps) ->
  In w campaigns ->
  (Campaigns.start_month w <= Campaigns.end_month w <->
   Campaigns.start_month w <= n_months cfg) /\
  (n_months cfg < Campaigns.start_month w ->
   Campaigns.end_month w = n_months cfg) /\
  (Campaigns.start_month w + 12 <= n_months cfg ->
   Campaigns.end_month w = Campaigns.start_month w + 12) /\
  4 <= Campaigns.start_month w <= 15.
Proof.
  intros H Hw. cbv -[Z.min n_months] in H. injection H as <- _.
  simpl in Hw.
  repeat (destruct Hw as [<-|Hw];
          [cbn [Campaigns.start_month Campaigns.end_month]; lia|]).
  contradiction.
Qed.

Section PanelAndSchedule.

Context {np : Numpy}.

(** With the maps of the scheduler, a record shows for each channel the id
    of the wave that the campaign table lists for the account's region, and
    a nudge on a channel falls between that wave's start and end month. *)
Theorem panel_follows_schedule cfg0 campaigns accounts maps cfg panel i m r a w :
  build_campaigns cfg0 = Ok (campaigns, maps) ->
  generate_panel accounts maps cfg = Ok panel ->
  row_at panel (List.length accounts) m i = Some r ->
  nth_error accounts i = Some a ->
  In w campaigns ->
  Campaigns.region w = Accounts.region a ->
  (Campaigns.channel w = "email" ->
   Panel.email_wave_id r = Some (Campaigns.nudge_wave_id w) /\
   (Panel.nudge_email r = 1 ->
    Campaigns.start_month w <= m <= Campaigns.end_month w)) /\
  (Campaigns.channel w = "sms" ->
   Panel.sms_wave_id r = Some (Campaigns.nudge_wave_id w) /\
   (Panel.nudge_sms r = 1 ->
    Campaigns.start_month w <= m <= Campaigns.end_month w)) /\
  (Campaigns.channel w = "inapp" ->
   Panel.inapp_wave_id r = Some (Campaigns.nudge_wave_id w) /\
   (Panel.nudge_inapp r = 1 ->
    Campaigns.start_month w <= m <= Campaigns.end_month w)).
Proof.
  intros Hb H Hr Ha Hw Hreg.
  destruct (lookup_of_wave cfg0 campaigns maps w Hb Hw) as (Ls & Le & Lw).
  rewrite Hreg in Ls, Le, Lw.
  destruct (active_in_window accounts maps cfg panel i a H Ha)
    as (mp & xs & D & (_ & _ & Hrows) & E7 & E8 & E9 & Hwin).
  destruct (proj1 (Hrows m r) Hr) as (k & x & -> & Hx & ->).
  destruct (Hwin k x Hx) as (A1 & A2 & A3).
  destruct (step_nudges cfg a mp (state_after cfg a mp init_state xs k) x)
    as (N1 & N2 & N3).
  destruct (step_waves cfg a mp (state_after cfg a mp init_state xs k) x)
    as (W1 & W2 & W3).
  repeat split;
    match goal with
    | Hc : Campaigns.channel w = _ |- _ = Some _ =>
        first [rewrite W1, E7 | rewrite W2, E8 | rewrite W3, E9];
        rewrite <- Hc; exact Lw
    | Hc : Campaigns.channel w = _, Hn : _ = 1 |- _ =>
        rewrite Hc in Ls, Le;
        first [destruct (N1 Hn) as (_ & _ & Hact);
               destruct (A1 Hact) as (s & e & Es & Ee & Hse)
              | destruct (N2 Hn) as (_ & _ & Hact);
                destruct (A2 Hact) as (s & e & Es & Ee & Hse)
              | destruct (N3 Hn) as (_ & Hact);
                destruct (A3 Hact) as (s & e & Es & Ee & Hse)];
        assert (s = Campaigns.start_month w) by congruence;
        assert (e = Campaigns.end_month w) by congruence; lia
    end.
Qed.

End PanelAndSchedule.

(** ** Samples in the unit interval *)

Section Rates.

Context {np : Numpy}.

Hypothesis random_nonnegative : forall g, (0 <= fst (gen_random g))%Q.

Lemma trajectory_uniform cfg accounts i a panel D mp xs :
  panel_draws accounts cfg = Ok D ->
  trajectory cfg (List.length accounts) i a panel D mp xs ->
  forall k x, nth_error xs k = Some x ->
  Forall (fun q => (0 <= q)%Q) (uniform_samples (in_draws x)).
Proof.
  intros HD (_ & Hin & _) k x Hx.
  destruct (Hin k x Hx) as [_ Hd]. apply row_at_In in Hd.
  pose proof (panel_draws_uniform (fun q => (0 <= q)%Q) accounts cfg D
                random_nonnegative HD) as Hall.
  rewrite Forall_forall in Hall. now apply Hall.
Qed.

Ltac sample Hu f :=
  let H := fresh "Hs" in
  assert (H : (0 <= f)%Q)
    by (rewrite Forall_forall in Hu; apply Hu; unfold uniform_samples;
        cbn; auto 20).

(** A true investment happens only while the account is active and the
    record of the month before shows it neither invested nor closed; so an
    account has at most one month with [invested_true]. *)
Theorem invests_at_most_once accounts maps cfg panel i m r :
  generate_panel accounts maps cfg = Ok panel ->
  row_at panel (List.length accounts) m i = Some r ->
  Panel.invested_true r = 1 ->
  Panel.active_flag r = 1 /\
  previous_invested_status panel (List.length accounts) m i = 0 /\
  previous_account_closed panel (List.length accounts) m i = 0 /\
  forall m' r',
    row_at panel (List.length accounts) m' i = Some r' ->
    Panel.invested_true r' = 1 -> m' = m.
Proof.
  intros H Hr Ht.
  destruct (panel_row _ _ _ _ H) as (D & HD & Hrow).
  destruct (Hrow i m r Hr) as (a & mp & xs & _ & Htr).
  pose proof (trajectory_uniform _ _ _ _ _ _ _ _ HD Htr) as Hu.
  pose proof (trajectory_previous _ _ _ _ _ _ _ _ Htr) as Hprev.
  destruct Htr as (_ & _ & Hrows).
  assert (Hone : forall k x,
            nth_error xs k = Some x ->
            Panel.invested_true
              (fst (account_month cfg a mp
                      (state_after cfg a mp init_state xs k) x)) = 1 ->
            Panel.active_flag
              (fst (account_month cfg a mp
                      (state_after cfg a mp init_state xs k) x)) = 1 /\
            invested_status (state_after cfg a mp init_state xs k) = false /\
            account_closed (state_after cfg a mp init_state xs k) = false).
  { intros k x Hx Hk. specialize (Hu k x Hx). sample Hu (u_invest (in_draws x)).
    pose proof (step_no_investment cfg a mp
                  (state_after cfg a mp init_state xs k) x Hs) as Hno.
    destruct (step_msr cfg a mp (state_after cfg a mp init_state xs k) x)
      as [_ Eact].
    destruct (Panel.months_since_rollover _ >=? 0);
      destruct (invested_status (state_after cfg a mp init_state xs k));
      destruct (account_closed (state_after cfg a mp init_state xs k));
      rewrite Eact in *; simpl in *;
      try (rewrite Hno in Hk by auto; discriminate); auto. }
  apply Hrows in Hr as (k & x & -> & Hx & ->).
  destruct (Hone k x Hx Ht) as (Ha & Hi & Hc).
  destruct (Hprev k x Hx) as [-> ->]. rewrite Hi, Hc.
  repeat split; try assumption.
  intros m' r' Hr' Ht'.
  apply Hrows in Hr' as (k' & x' & -> & Hx' & ->).
  destruct (Hone k' x' Hx' Ht') as (_ & Hi' & _).
  destruct (Nat.lt_trichotomy k k') as [Hlt|[->|Hlt]]; [|reflexivity|]; exfalso.
  - assert (Hs : invested_status (state_after cfg a mp init_state xs (S k)) = true).
    { rewrite (status_step cfg a mp xs k x Hx), Ht. apply orb_true_r. }
    rewrite (status_mono cfg a mp xs (S k) k' x' Hx' ltac:(lia) Hs) in Hi'.
    discriminate.
  - assert (Hs : invested_status (state_after cfg a mp init_state xs (S k')) = true).
    { rewrite (status_step cfg a mp xs k' x' Hx'), Ht'. apply orb_true_r. }
    rewrite (status_mono cfg a mp xs (S k') k x Hx ltac:(lia) Hs) in Hi.
    discriminate.
Qed.

(** With a contamination rate of zero (or less) no one is exposed on a
    channel without having been assigned the nudge on it. *)
Theorem no_contamination_at_rate_zero accounts maps cfg panel i m r :
  (contam_rate cfg <= 0)%Q ->
  generate_panel accounts maps cfg = Ok panel ->
  row_at panel (List.length accounts) m i = Some r ->
  (Panel.exposure_email r = 1 -> Panel.nudge_email r = 1) /\
  (Panel.exposure_sms r = 1 -> Panel.nudge_sms r = 1) /\
  (Panel.exposure_inapp r = 1 -> Panel.nudge_inapp r = 1).
Proof.
  intros Hrate H Hr.
  destruct (panel_row _ _ _ _ H) as (D & HD & Hrow).
  destruct (Hrow i m r Hr) as (a & mp & xs & _ & Htr).
  pose proof (trajectory_uniform _ _ _ _ _ _ _ _ HD Htr) as Hu.
  destruct Htr as (_ & _ & Hrows).
  apply Hrows in Hr as (k & x & -> & Hx & ->).
  specialize (Hu k x Hx).
  sample Hu (u_email_contam (in_draws x)).
  sample Hu (u_sms_contam (in_draws x)).
  sample Hu (u_inapp_contam (in_draws x)).
  apply step_no_contamination; eapply Qle_trans; eassumption.
Qed.

(** With a label-noise rate of zero (or less) the observed flag is the
    true outcome in every record. *)
Theorem no_label_noise_at_rate_zero accounts maps cfg panel i m r :
  (label_noise_rate cfg <= 0)%Q ->
  generate_panel accounts maps cfg = Ok panel ->
  row_at panel (List.length accounts) m i = Some r ->
  Panel.invested_flag r = Panel.invested_true r.
Proof.
  intros Hrate H Hr.
  destruct (panel_row _ _ _ _ H) as (D & HD & Hrow).
  destruct (Hrow i m r Hr) as (a & mp & xs & _ & Htr).
  pose proof (trajectory_uniform _ _ _ _ _ _ _ _ HD Htr) as Hu.
  destruct Htr as (_ & _ & Hrows).
  apply Hrows in Hr as (k & x & -> & Hx & ->).
  specialize (Hu k x Hx). sample Hu (u_noise (in_draws x)).
  apply step_no_noise. eapply Qle_trans; eassumption.
Qed.

(** With a closure rate of zero (or less) no account is ever closed. *)
Theorem never_closed_at_rate_zero accounts maps cfg panel i m r :
  (close_rate cfg <= 0)%Q ->
  generate_panel accounts maps cfg = Ok panel ->
  row_at panel (List.length accounts) m i = Some r ->
  Panel.account_closed r = 0.
Proof.
  intros Hrate H Hr.
  destruct (panel_row _ _ _ _ H) as (D & HD & Hrow).
  destruct (Hrow i m r Hr) as (a & mp & xs & _ & Htr).
  pose proof (trajectory_uniform _ _ _ _ _ _ _ _ HD Htr) as Hu.
  destruct Htr as (_ & _ & Hrows).
  apply Hrows in Hr as (k & x & -> & Hx & ->).
  rewrite (row_closed cfg a mp xs k x Hx).
  assert (Hall : forall j, (j <= List.length xs)%nat ->
            account_closed (state_after cfg a mp init_state xs j) = false).
  { induction j as [|j IH]; intros Hj; [now rewrite state_after_0|].
    destruct (nth_error xs j) as [y|] eqn:Hy;
      [|apply nth_error_None in Hy; lia].
    rewrite (state_after_S cfg a mp xs init_state j y Hy).
    pose proof (Hu j y Hy) as Huj. sample Huj (u_close (in_draws y)).
    rewrite step_no_closure; [apply IH; lia|].
    eapply Qle_trans; eassumption. }
  rewrite Hall; [reflexivity|]. apply (nth_error_length _ _ _ Hx).
Qed.

End Rates.

Section Observed.

Context {np : Numpy}.

(** The observed engagement score and market return of a record are [nan]
    exactly when the record's missing flag is set, and otherwise the
    account's score and the record's own [market_return]; the unmasked
    values stay in the record. *)
Theorem observed_or_missing accounts maps cfg panel i m r a :
  generate_panel accounts maps cfg = Ok panel ->
  row_at panel (List.length accounts) m i = Some r ->
  nth_error accounts i = Some a ->
  Panel.engagement_obs r =
    (if Panel.missing_engagement r =? 1 then nan
     else num (Accounts.digital_engagement_score a)) /\
  Panel.market_return_obs r =
    (if Panel.missing_market_return r =? 1 then nan
     else num (Panel.market_return r)).
Proof.
  intros H Hr Ha.
  destruct (panel_row _ _ _ _ H) as (D & _ & Hrow).
  destruct (Hrow i m r Hr) as (a' & mp & xs & Ha' & (_ & _ & Hrows)).
  assert (a' = a) by congruence. subst a'.
  apply Hrows in Hr as (k & x & -> & Hx & ->).
  apply step_observed.
Qed.

End Observed.

(** ** Macro factors *)

Section Macro.

Context {np : Numpy}.

Lemma tile_nth (l : list Q) (reps : nat) (k : nat) :
  (k < reps * List.length l)%nat ->
  nth k (List.concat (repeat l reps)) 0%Q = nth (k mod List.length l) l 0%Q.
Proof.
  revert k. induction reps as [|c IH]; intros k Hk; [simpl in Hk; lia|].
  assert (Hl : (0 < List.length l)%nat) by (destruct (List.length l); simpl in Hk; lia).
  simpl. destruct (Nat.lt_ge_cases k (List.length l)) as [Hlt|Hge].
  - rewrite app_nth1 by exact Hlt. now rewrite Nat.mod_small.
  - rewrite app_nth2 by exact Hge. rewrite IH by (simpl in Hk; lia).
    f_equal.
    replace k with ((k - List.length l) + 1 * List.length l)%nat at 2 by lia.
    now rewrite Nat.Div0.mod_add.
Qed.

Lemma item_nth (l : list Q) (i : Z) (q : Q) :
  item l i = Ok q -> 0 <= i -> q = nth (Z.to_nat i) l 0%Q.
Proof.
  unfold item. intros H Hi.
  destruct (Z.ltb_spec i 0); [lia|].
  destruct ((0 <=? i) && (i <? Z.of_nat (List.length l))); [|discriminate].
  now injection H.
Qed.

Lemma seasonality_nth cfg rng market seas rng' (k : nat) :
  macro_factors cfg rng = Ok (market, seas, rng') ->
  (k < Z.to_nat (n_months cfg))%nat ->
  nth k seas 0%Q = (nth (k mod 12) seasonality_template 0 * (10 # 100))%Q /\
  market = fst (draw_n (gen_normal (4 # 1000) (3 # 100))
                  (Z.to_nat (n_months cfg)) rng).
Proof.
  intros H Hk.
  destruct (macro_factors_ok cfg rng ltac:(lia))
    as (market' & seas' & rng'' & H' & Hlm & Hls).
  rewrite H in H'. injection H' as <- <- <-.
  unfold macro_factors, draw_size in H.
  destruct (Z.ltb_spec (n_months cfg) 0); [lia|]. simpl in H.
  destruct (draw_n _ _ rng) as [mk g]. simpl in H. injection H as <- Hs _.
  split; [|reflexivity].
  rewrite <- Hs in Hls |- *. rewrite length_map in Hls.
  rewrite (nth_indep _ 0%Q (0 * (10 # 100))%Q) by (rewrite length_map; lia).
  rewrite (map_nth (fun x => (x * (10 # 100))%Q)). f_equal.
  unfold slice_to in Hls |- *.
  destruct (Z.ltb_spec (n_months cfg) 0); [lia|].
  rewrite length_firstn in Hls.
  rewrite nth_firstn. destruct (Nat.ltb_spec k (Z.to_nat (n_months cfg))); [|lia].
  rewrite tile_length in Hls.
  change (List.length seasonality_template) with 12%nat in Hls.
  unfold tile. rewrite tile_nth; [reflexivity|].
  change (List.length seasonality_template) with 12%nat. lia.
Qed.

(** The market return of a record is the sample of its month among the
    [n_months] normal samples taken first from the panel's generator, the
    same for every account; its seasonality index is a tenth of the
    template entry of the month, and so repeats every twelve months. *)
Theorem macro_factors_by_month accounts maps cfg panel i m r :
  generate_panel accounts maps cfg = Ok panel ->
  row_at panel (List.length accounts) m i = Some r ->
  Panel.market_return r =
    nth (Z.to_nat (m - 1))
      (fst (draw_n (gen_normal (4 # 1000) (3 # 100))
              (Z.to_nat (n_months cfg)) (seed_state (seed cfg + 1)))) 0%Q /\
  Panel.seasonality_index r =
    (nth (Z.to_nat (m - 1) mod 12) seasonality_template 0 * (10 # 100))%Q.
Proof.
  intros H Hr.
  destruct (nth_error accounts i) as [a|] eqn:Ha;
    [|apply row_at_index in Hr; apply nth_error_None in Ha; lia].
  destruct (panel_env _ _ _ _ H)
    as (D & mappings & rng0 & market & seas & rng1 & _ & _ & Hrng & Hmac & _ & Htraj).
  destruct (Htraj i a Ha) as (xs & Ht & He).
  pose proof (trajectory_months _ _ _ _ _ _ _ _ Ht) as Hm.
  destruct Ht as (Hlx & _ & Hrows).
  destruct (proj1 (Hrows m r) Hr) as (k & x & Em & Hx & Er).
  rewrite Em, Er. clear Em Er.
  pose proof (nth_error_length _ _ _ Hx) as Hk.
  rewrite Forall_forall in He. specialize (He x (nth_error_In _ _ Hx)).
  destruct He as (_ & Hmr & Hse). rewrite (Hm k x Hx) in Hmr, Hse.
  apply item_nth in Hmr; [|lia]. apply item_nth in Hse; [|lia].
  destruct (seasonality_nth cfg rng0 market seas rng1 k Hmac ltac:(lia))
    as [Es Em].
  unfold default_rng in Hrng.
  destruct (seed cfg + 1 <? 0); [discriminate|]. injection Hrng as <-.
  destruct (step_macro cfg a (nth i mappings default_mapping)
              (state_after cfg a (nth i mappings default_mapping) init_state xs k) x)
    as [-> ->].
  replace (Z.to_nat (1 + Z.of_nat k - 1)) with k in * by lia.
  rewrite Hmr, Hse, Es, Em. split; reflexivity.
Qed.

End Macro.

(** ** When the generators succeed *)

Section Success.

Context {np : Numpy}.


Lemma map_nth_all {A : Type} (l : list A) (d : A) :
  map (fun i => nth i l d) (seq 0 (List.length l)) = l.
Proof.
  apply (nth_ext _ _ d d).
  - now rewrite length_map, length_seq.
  - intros k Hk. rewrite length_map, length_seq in Hk.
    now rewrite nth_map_seq.
Qed.

Lemma NoDup_map_injective {A B : Type} (f : A -> B) (l : list A) :
  (forall x y, f x = f y -> x = y) -> NoDup l -> NoDup (map f l).
Proof.
  intros Hf. induction 1 as [|x l Hx _ IH]; simpl; constructor; [|exact IH].
  intros Hin. apply in_map_iff in Hin. destruct Hin as (y & Hy & Hin).
  apply Hf in Hy. subst y. contradiction.
Qed.

Lemma build_accounts_id_column rng cfg accts rng' :
  build_accounts rng cfg = Ok (accts, rng') ->
  map Accounts.account_id accts = arange 1 (n_accounts cfg + 1).
Proof.
  intros H. unfold build_accounts in H.
  repeat (apply bind_ok in H as ([? ?] & _ & H)).
  injection H as <- _. rewrite map_map. cbn [Accounts.account_id].
  apply map_nth_all.
Qed.

(** The account table has [n_accounts] rows, with the ids 1, 2, ... in
    order, so that no two rows share an id. *)
Theorem build_accounts_ids rng cfg accts rng' :
  build_accounts rng cfg = Ok (accts, rng') ->
  0 <= n_accounts cfg /\
  List.length accts = Z.to_nat (n_accounts cfg) /\
  map Accounts.account_id accts = arange 1 (n_accounts cfg + 1) /\
  NoDup (map Accounts.account_id accts).
Proof.
  intros H. pose proof (build_accounts_length _ _ _ _ H) as Hlen.
  pose proof (build_accounts_id_column _ _ _ _ H) as Hids.
  split.
  { destruct (Z.ltb_spec (n_accounts cfg) 0) as [Hneg|]; [|assumption].
    rewrite (build_accounts_negative rng cfg Hneg) in H. discriminate. }
  split; [exact Hlen|]. split; [exact Hids|].
  rewrite Hids. unfold arange.
  apply NoDup_map_injective; [|apply seq_NoDup].
  intros x y Hxy. lia.
Qed.

(** Every balance of the account table lies between 1000 and 500000. *)
Theorem build_accounts_balance_range rng cfg accts rng' a :
  build_accounts rng cfg = Ok (accts, rng') ->
  In a accts ->
  (inject_Z 1000 <= Accounts.baseline_balance a
   /\ Accounts.baseline_balance a <= inject_Z 500000)%Q.
Proof.
  intros H Ha. split.
  - pose proof (build_accounts_balance _ _ _ _ H) as Hall.
    rewrite Forall_forall in Hall. now apply Hall.
  - unfold build_accounts in H.
    apply bind_ok in H as ([rollover rng1] & _ & H).
    apply bind_ok in H as ([balance rng2] & Hb & H).
    repeat (apply bind_ok in H as ([? ?] & _ & H)).
    injection H as <- _.
    apply in_map_iff in Ha. destruct Ha as (i & <- & Hi).
    cbn [Accounts.baseline_balance].
    destruct (Nat.lt_ge_cases i (List.length balance)) as [Hlt|Hge].
    + rewrite (nth_indep _ 0%Q (clip 0 (inject_Z 1000) (inject_Z 500000)))
        by (rewrite length_map; lia).
      rewrite (map_nth (fun b => clip b (inject_Z 1000) (inject_Z 500000))).
      unfold clip. apply Q.le_min_r.
    + rewrite nth_overflow by (rewrite length_map; lia). discriminate.
Qed.






Lemma windows_incomplete (m : Z) (mp : mapping) :
  email_start mp = None \/ sms_start mp = None \/ inapp_start mp = None \/
  email_end mp = None \/ sms_end mp = None \/ inapp_end mp = None ->
  is_ok (windows m mp) = false.
Proof.
  unfold windows, window. intros H.
  destruct (email_start mp), (email_end mp), (sms_start mp), (sms_end mp),
    (inapp_start mp), (inapp_end mp); try reflexivity;
    repeat (destruct H as [H|H]; try discriminate); discriminate.
Qed.

Lemma map_result_fails {A B : Type} (f : A -> result B) (l : list A) (x : A) :
  In x l -> is_ok (f x) = false -> is_ok (map_result f l) = false.
Proof.
  induction l as [|y l IH]; intros Hin Hx; [contradiction|].
  simpl. destruct Hin as [->|Hin].
  - destruct (f x); [discriminate | reflexivity].
  - destruct (f y); [|reflexivity]. simpl.
    specialize (IH Hin Hx). destruct (map_result f l); [discriminate | reflexivity].
Qed.

(** [generate_panel] raises when the campaign maps give no start month or
    no end month, on some channel, for the region of some account. *)
Theorem unknown_region_fails accts (maps : dict channel_maps) cfg a kind channel :
  In a accts ->
  In kind ["start"; "end"] ->
  In channel channels ->
  campaign_lookup maps kind channel (Accounts.region a) = None ->
  is_ok (generate_panel accts maps cfg) = false.
Proof.
  intros Ha Hkind Hch Hnone.
  destruct (In_nth _ _ default_account Ha) as (j & Hj & Hnth).
  unfold generate_panel.
  destruct (default_rng (seed cfg + 1)) as [rng|e]; [|reflexivity]. simpl.
  destruct (campaign_mapping maps (map Accounts.region accts))
    as [mappings|e] eqn:Hmap; [|reflexivity]. simpl.
  destruct (macro_factors cfg rng) as [[[market seas] rng']|e]; [|reflexivity].
  simpl.
  destruct (arange 1 (n_months cfg + 1)) as [|m months]; [reflexivity|].
  simpl. unfold month_frame.
  assert (Hj' : (j < List.length (map Accounts.region accts))%nat)
    by (now rewrite length_map).
  pose proof (campaign_mapping_nth maps _ mappings j Hmap Hj') as Hf.
  cbv zeta in Hf.
  rewrite (nth_indep _ "" (Accounts.region default_account)) in Hf by exact Hj'.
  rewrite map_nth, Hnth in Hf.
  destruct Hf as (E1 & E2 & E3 & E4 & E5 & E6 & _).
  assert (Hinc : is_ok (windows m (nth j mappings default_mapping)) = false).
  { apply windows_incomplete. simpl in Hkind, Hch.
    destruct Hkind as [<-|[<-|[]]]; destruct Hch as [<-|[<-|[<-|[]]]];
      rewrite Hnone in *; auto 10. }
  assert (Hin : In (nth j mappings default_mapping) mappings).
  { apply nth_In. rewrite (campaign_mapping_length _ _ _ Hmap). exact Hj'. }
  pose proof (map_result_fails (windows m) mappings _ Hin Hinc) as Hfail.
  destruct (map_result (windows m) mappings); [discriminate | reflexivity].
Qed.

End Success.

Section MainMore.

Context {np : Numpy}.

Lemma build_campaigns_total cfg :
  exists campaigns maps,
    build_campaigns cfg = Ok (campaigns, maps) /\ List.length campaigns = 12%nat.
Proof.
  eexists. eexists. split; [cbv -[Z.min n_months]; reflexivity | reflexivity].
Qed.


(** A run that ends without an exception leaves four tables: the accounts
    with the ids 1, 2, ... in order, twelve campaign waves, a panel with a
    record per account and month, and the DiD-ready projection of the
    panel, row by row. *)
Theorem main_tables (a : args) :
  raised (main a) = None ->
  wrote (main a) = true /\
  exists accts camps pnl,
    accounts (main a) = Some accts /\
    campaigns (main a) = Some camps /\
    panel (main a) = Some pnl /\
    did_ready (main a) = Some (build_did_ready pnl) /\
    map Accounts.account_id accts = arange 1 (arg_accounts a + 1) /\
    List.length camps = 12%nat /\
    List.length pnl =
      (Z.to_nat (arg_months a) * Z.to_nat (arg_accounts a))%nat /\
    List.length (build_did_ready pnl) = List.length pnl.
Proof.
  unfold main.
  set (cfg := mkConfig (arg_seed a) (arg_accounts a) (arg_months a)).
  destruct (default_rng (seed cfg)) as [rng|e]; [|discriminate].
  destruct (build_accounts rng cfg) as [[accts rng']|e] eqn:Hacc; [|discriminate].
  destruct (build_campaigns_total cfg) as (camps & maps & Hcamp & Hlen).
  rewrite Hcamp.
  destruct (generate_panel accts maps cfg) as [pnl|e] eqn:Hgp; [|discriminate].
  intros _. cbn [accounts campaigns panel did_ready wrote].
  pose proof (build_accounts_length _ _ _ _ Hacc) as Hal.
  pose proof (build_accounts_id_column _ _ _ _ Hacc) as Hids.
  destruct (panel_env _ _ _ _ Hgp)
    as (D & mappings & rng0 & market & seas & rng1 & _ & _ & _ & _ & Hpl & _).
  simpl in Hal, Hpl, Hids.
  split; [reflexivity|].
  exists accts, camps, pnl. repeat split; try assumption.
  - now rewrite Hpl, Hal.
  - unfold build_did_ready. apply length_map.
Qed.


End MainMore.

(** ** The properties on the small runs *)

Lemma reference_random_nonnegative (g : Z) :
  (0 <= fst (Reference.random g))%Q.
Proof.
  unfold Reference.random. cbn [fst]. unfold Qle. cbn [Qnum Qden].
  assert (0 <= Reference.advance g / 281474976710656).
  { apply Z.div_pos; [|reflexivity]. unfold Reference.advance.
    apply Z.mod_pos_bound. reflexivity. }
  lia.
Qed.


Lemma closing_panel_generated :
  generate_panel (np := Reference.numpy) Demo.accounts Demo.maps Edge.closing_cfg
  = Ok (Edge.panel_of Edge.closing_cfg).
Proof. vm_compute. reflexivity. Qed.

Lemma quiet_panel_generated :
  generate_panel (np := Reference.numpy) Demo.accounts Demo.maps Edge.quiet_cfg
  = Ok (Edge.panel_of Edge.quiet_cfg).
Proof. vm_compute. reflexivity. Qed.

Lemma demo_campaigns_built :
  build_campaigns Demo.cfg = Ok (Edge.campaigns, Demo.maps).
Proof. vm_compute. reflexivity. Qed.

Ltac edge_row cfg m i r Hr :=
  destruct (row_at (Edge.panel_of cfg) 2 m i) as [r|] eqn:Hr;
  [|vm_compute in Hr; discriminate].

Ltac demo_account i a Ha :=
  destruct (nth_error Demo.accounts i) as [a|] eqn:Ha;
  [|vm_compute in Ha; discriminate].


Lemma build_accounts_ids_witness :
  map Accounts.account_id Demo.accounts = arange 1 (2 + 1).
Proof.
  destruct demo_accounts_from_generator as [rng Hacc].
  apply (build_accounts_ids (np := Reference.numpy) _ _ _ _ Hacc).
Defined.

Lemma build_accounts_balance_range_witness :
  exists a,
    nth_error Demo.accounts 1 = Some a /\
    (inject_Z 1000 <= Accounts.baseline_balance a
     /\ Accounts.baseline_balance a <= inject_Z 500000)%Q.
Proof.
  demo_account 1%nat a Ha.
  destruct demo_accounts_from_generator as [rng Hacc].
  exists a. split; [reflexivity|].
  apply (build_accounts_balance_range (np := Reference.numpy) _ _ _ _ a Hacc
           (nth_error_In _ _ Ha)).
Defined.

Lemma schedule_lookup_witness :
  campaign_lookup Demo.maps "start" "sms" "East" = Some 11 <->
  exists w, In w Edge.campaigns
            /\ Campaigns.channel w = "sms" /\ Campaigns.region w = "East"
            /\ Campaigns.start_month w = 11.
Proof.
  apply (schedule_lookup Demo.cfg Edge.campaigns Demo.maps "sms" "East" 11
           demo_campaigns_built).
Defined.

Lemma schedule_order_witness :
  map (fun w => (Campaigns.nudge_wave_id w,
                 (Campaigns.region w, Campaigns.channel w))) Edge.campaigns
  = combine (arange 1 13) (list_prod regions channels).
Proof.
  apply (schedule_order Demo.cfg Edge.campaigns Demo.maps demo_campaigns_built).
Defined.

Lemma schedule_window_witness :
  exists w,
    nth_error Edge.campaigns 11 = Some w /\
    (n_months Demo.cfg < Campaigns.start_month w ->
     Campaigns.end_month w = n_months Demo.cfg).
Proof.
  destruct (nth_error Edge.campaigns 11) as [w|] eqn:Hw;
    [|vm_compute in Hw; discriminate].
  exists w. split; [reflexivity|].
  apply (schedule_window Demo.cfg Edge.campaigns Demo.maps w
           demo_campaigns_built (nth_error_In _ _ Hw)).
Defined.

Lemma panel_shape_witness :
  List.length Demo.panel = (Z.to_nat 12 * List.length Demo.accounts)%nat.
Proof.
  apply (panel_shape (np := Reference.numpy) Demo.accounts Demo.maps Demo.cfg
           Demo.panel demo_panel_generated).
Defined.

Lemma invested_status_accumulates_witness :
  exists r r',
    row_at Demo.panel 2 8 0 = Some r /\
    row_at Demo.panel 2 11 0 = Some r' /\
    Panel.invested_status r = 1 /\
    Panel.invested_status r' = 1.
Proof.
  demo_row 8 0%nat r Hr. demo_row 11 0%nat r' Hr'.
  assert (Hs : Panel.invested_status r = 1) by demo_field Hr r.
  exists r, r'. repeat split; try assumption.
  apply (proj2 (invested_status_accumulates (np := Reference.numpy)
                  Demo.accounts Demo.maps Demo.cfg Demo.panel 0 8 r
                  demo_panel_generated Hr) Hs 11 r' ltac:(lia) Hr').
Defined.

Lemma account_closed_monotone_witness :
  exists r r',
    row_at (Edge.panel_of Edge.closing_cfg) 2 1 0 = Some r /\
    row_at (Edge.panel_of Edge.closing_cfg) 2 5 0 = Some r' /\
    Panel.account_closed r = 1 /\
    Panel.account_closed r' = 1.
Proof.
  edge_row Edge.closing_cfg 1 0%nat r Hr. edge_row Edge.closing_cfg 5 0%nat r' Hr'.
  assert (Hs : Panel.account_closed r = 1) by demo_field Hr r.
  exists r, r'. repeat split; try assumption.
  apply (account_closed_monotone (np := Reference.numpy)
           Demo.accounts Demo.maps Edge.closing_cfg _ 0 1 r 5 r'
           closing_panel_generated Hr Hr' ltac:(lia) Hs).
Defined.

Lemma eligible_iff_witness :
  exists r a,
    row_at Demo.panel 2 8 0 = Some r /\
    nth_error Demo.accounts 0 = Some a /\
    (Panel.eligible_flag r = 1 <->
     Accounts.rollover_month a + 1 <= 8 <= Accounts.rollover_month a + 6 /\
     previous_invested_status Demo.panel 2 8 0 = 0 /\
     previous_account_closed Demo.panel 2 8 0 = 0).
Proof.
  demo_row 8 0%nat r Hr. demo_account 0%nat a Ha.
  exists r, a. split; [reflexivity|]. split; [reflexivity|].
  apply (eligible_iff (np := Reference.numpy) Demo.accounts Demo.maps Demo.cfg
           Demo.panel 0 8 r a demo_panel_generated Hr Ha).
Defined.

Lemma nudge_within_window_witness :
  exists r a,
    row_at Demo.panel 2 8 0 = Some r /\
    nth_error Demo.accounts 0 = Some a /\
    Panel.nudge_inapp r = 1 /\
    in_window Demo.maps "inapp" (Accounts.region a) 8.
Proof.
  demo_row 8 0%nat r Hr. demo_account 0%nat a Ha.
  assert (Hn : Panel.nudge_inapp r = 1) by demo_field Hr r.
  exists r, a. repeat split; try assumption.
  apply (proj2 (proj2 (nudge_within_window (np := Reference.numpy)
                         Demo.accounts Demo.maps Demo.cfg Demo.panel 0 8 r a
                         demo_panel_generated Hr Ha)) Hn).
Defined.

Lemma panel_follows_schedule_witness :
  exists r a w,
    row_at Demo.panel 2 8 0 = Some r /\
    nth_error Demo.accounts 0 = Some a /\
    nth_error Edge.campaigns 2 = Some w /\
    Campaigns.region w = Accounts.region a /\
    Campaigns.channel w = "inapp" /\
    Panel.inapp_wave_id r = Some (Campaigns.nudge_wave_id w).
Proof.
  demo_row 8 0%nat r Hr. demo_account 0%nat a Ha.
  destruct (nth_error Edge.campaigns 2) as [w|] eqn:Hw;
    [|vm_compute in Hw; discriminate].
  assert (Hreg : Campaigns.region w = Accounts.region a).
  { pose proof Hw as E. vm_compute in E. injection E as <-.
    pose proof Ha as E. vm_compute in E. injection E as <-. reflexivity. }
  assert (Hch : Campaigns.channel w = "inapp")
    by (pose proof Hw as E; vm_compute in E; injection E as <-; reflexivity).
  exists r, a, w. repeat split; try assumption.
  apply (proj2 (proj2 (panel_follows_schedule (np := Reference.numpy)
                         Demo.cfg Edge.campaigns Demo.accounts Demo.maps
                         Demo.cfg Demo.panel 0 8 r a w
                         demo_campaigns_built demo_panel_generated Hr Ha
                         (nth_error_In _ _ Hw) Hreg)) Hch).
Defined.

Lemma invests_at_most_once_witness :
  exists r,
    row_at Demo.panel 2 8 0 = Some r /\
    Panel.invested_true r = 1 /\
    Panel.active_flag r = 1 /\
    previous_invested_status Demo.panel 2 8 0 = 0.
Proof.
  demo_row 8 0%nat r Hr.
  assert (Ht : Panel.invested_true r = 1) by demo_field Hr r.
  exists r. split; [reflexivity|]. split; [exact Ht|].
  destruct (invests_at_most_once (np := Reference.numpy)
              reference_random_nonnegative
              Demo.accounts Demo.maps Demo.cfg Demo.panel 0 8 r
              demo_panel_generated Hr Ht) as (Ha & Hp & _).
  split; assumption.
Defined.

Lemma no_contamination_at_rate_zero_witness :
  exists r,
    row_at (Edge.panel_of Edge.quiet_cfg) 2 8 0 = Some r /\
    (Panel.exposure_inapp r = 1 -> Panel.nudge_inapp r = 1).
Proof.
  edge_row Edge.quiet_cfg 8 0%nat r Hr.
  exists r. split; [reflexivity|].
  apply (no_contamination_at_rate_zero (np := Reference.numpy)
           reference_random_nonnegative
           Demo.accounts Demo.maps Edge.quiet_cfg _ 0 8 r
           ltac:(discriminate) quiet_panel_generated Hr).
Defined.

Lemma no_label_noise_at_rate_zero_witness :
  exists r,
    row_at (Edge.panel_of Edge.quiet_cfg) 2 8 0 = Some r /\
    Panel.invested_flag r = Panel.invested_true r.
Proof.
  edge_row Edge.quiet_cfg 8 0%nat r Hr.
  exists r. split; [reflexivity|].
  apply (no_label_noise_at_rate_zero (np := Reference.numpy)
           reference_random_nonnegative
           Demo.accounts Demo.maps Edge.quiet_cfg _ 0 8 r
           ltac:(discriminate) quiet_panel_generated Hr).
Defined.

Lemma never_closed_at_rate_zero_witness :
  exists r,
    row_at (Edge.panel_of Edge.quiet_cfg) 2 12 1 = Some r /\
    Panel.account_closed r = 0.
Proof.
  edge_row Edge.quiet_cfg 12 1%nat r Hr.
  exists r. split; [reflexivity|].
  apply (never_closed_at_rate_zero (np := Reference.numpy)
           reference_random_nonnegative
           Demo.accounts Demo.maps Edge.quiet_cfg _ 1 12 r
           ltac:(discriminate) quiet_panel_generated Hr).
Defined.

Lemma observed_or_missing_witness :
  exists r a,
    row_at Demo.panel 2 8 0 = Some r /\
    nth_error Demo.accounts 0 = Some a /\
    Panel.engagement_obs r =
      (if Panel.missing_engagement r =? 1 then nan
       else num (Accounts.digital_engagement_score a)).
Proof.
  demo_row 8 0%nat r Hr. demo_account 0%nat a Ha.
  exists r, a. split; [reflexivity|]. split; [reflexivity|].
  apply (observed_or_missing (np := Reference.numpy)
           Demo.accounts Demo.maps Demo.cfg Demo.panel 0 8 r a
           demo_panel_generated Hr Ha).
Defined.

Lemma macro_factors_by_month_witness :
  exists r r',
    row_at Demo.panel 2 1 0 = Some r /\
    row_at Demo.panel 2 1 1 = Some r' /\
    Panel.market_return r = Panel.market_return r' /\
    Panel.seasonality_index r = ((20 # 100) * (10 # 100))%Q.
Proof.
  demo_row 1 0%nat r Hr. demo_row 1 1%nat r' Hr'.
  destruct (macro_factors_by_month (np := Reference.numpy)
              Demo.accounts Demo.maps Demo.cfg Demo.panel 0 1 r
              demo_panel_generated Hr) as [Em Es].
  destruct (macro_factors_by_month (np := Reference.numpy)
              Demo.accounts Demo.maps Demo.cfg Demo.panel 1 1 r'
              demo_panel_generated Hr') as [Em' _].
  exists r, r'. repeat split; [congruence | exact Es].
Defined.



Lemma unknown_region_fails_witness :
  In Edge.stray [Edge.stray] /\
  campaign_lookup Demo.maps "start" "email" (Accounts.region Edge.stray) = None /\
  is_ok (generate_panel (np := Reference.numpy) [Edge.stray] Demo.maps Demo.cfg)
    = false.
Proof.
  assert (Hin : In Edge.stray [Edge.stray]) by (left; reflexivity).
  assert (Hno : campaign_lookup Demo.maps "start" "email"
                  (Accounts.region Edge.stray) = None)
    by (vm_compute; reflexivity).
  split; [exact Hin|]. split; [exact Hno|].
  apply (unknown_region_fails (np := Reference.numpy)
           [Edge.stray] Demo.maps Demo.cfg Edge.stray "start" "email" Hin
           (or_introl eq_refl) (or_introl eq_refl) Hno).
Defined.

Lemma main_tables_witness :
  raised (main (np := Reference.numpy) Demo.cli) = None /\
  wrote (main (np := Reference.numpy) Demo.cli) = true.
Proof.
  assert (H : raised (main (np := Reference.numpy) Demo.cli) = None)
    by (vm_compute; reflexivity).
  split; [exact H|].
  apply (main_tables (np := Reference.numpy) Demo.cli H).
Defined.

